(** * filevars: the file-variable registry and the print-dispatch loop

    A shallow embedding of [src/filevars.c].  The program keeps one global
    [FileVarsState] whose [pFileVars] field is a singly linked list of
    [FileVar] nodes, built at startup by [SetupFileVar] (the callback given
    to [JSON_Iterate]) and scanned by [PrintFileVar] for every print
    notification received in the endless loop of [main].

    Everything outside the file (the variable server, the template
    renderer, the JSON library, the C library, the kernel's descriptor
    table) is a component of the [World] record; each external call is
    additionally recorded as an [event], so that statements such as
    "the session is released exactly once" or "no file is opened" can be
    read off the list of events a call emits. *)

From Stdlib Require Import ZArith List String Bool Lia.
From Stdlib Require Import Strings.Byte.
Import ListNotations.
Local Open Scope Z_scope.

(** ** Constants of <errno.h> and of the variable server *)

Definition EOK : Z := 0.
Definition ENOENT : Z := 2.
Definition EINVAL : Z := 22.

(** [VAR_HANDLE] is an unsigned 32-bit integer; handles are only ever
    compared, never computed with. *)
Definition VAR_HANDLE := Z.

(** [VARSERVER_HANDLE] is a pointer: [None] is [NULL]. *)
Definition VARSERVER_HANDLE := option Z.

(** ** Data model (lines 65-95) *)

(** A [FileVar] node.  [pFilename] is the result of [strdup], which is
    [NULL] when the copy could not be allocated.  The [pNext] link is the
    tail of the list holding the node. *)
Record FileVar := mkFileVar {
  hVar : VAR_HANDLE;
  pFilename : option string
}.

Record FileVarsState := mkState {
  hVarServer : VARSERVER_HANDLE;
  verbose : bool;
  pFileName : option string;
  pFileVars : list FileVar
}.

(** [memset( &state, 0, sizeof( state ) )] *)
Definition zero_state : FileVarsState :=
  {| hVarServer := None; verbose := false; pFileName := None; pFileVars := [] |}.

(** A pointer to a [FileVarsState]: the program has exactly one such
    object, the global [state]. *)
Inductive StatePtr := NullPtr | AddrOfState.

(** A JSON object node, as far as [SetupFileVar] looks at it: its
    attributes in order, each one a [JVar] whose [var.val.str] is a
    string pointer ([None] for [NULL]). *)
Definition JNode := list (string * option string).

(** ** External calls *)

Inductive event :=
| EvFindByName (name : string)                      (* VAR_FindByName *)
| EvNotify (h : VAR_HANDLE)                         (* VAR_Notify( .., NOTIFY_PRINT ) *)
| EvWaitSignal (sig sigval : Z)                     (* VARSERVER_WaitSignal *)
| EvOpenPrintSession (sigval : Z)                   (* VAR_OpenPrintSession *)
| EvClosePrintSession (sigval fd : Z)               (* VAR_ClosePrintSession *)
| EvOpen (path : option string) (ret : Z)           (* open( path, O_RDONLY ) *)
| EvRender (fd_in fd_out : Z) (out : list byte)     (* TEMPLATE_FileToFile *)
| EvClose (fd : Z)                                  (* close *)
| EvServerClose                                     (* VARSERVER_Close *)
| EvSyslog (msg : string)                           (* syslog *)
| EvUsage                                           (* usage *)
| EvTest (e : FileVar) (matched : bool).
  (* not a call: one evaluation of [pFileVar->hVar == hVar] in the scan of
     PrintFileVar, with its outcome *)

(** The process and its environment.
    - [namespace]: what [VAR_FindByName] answers ([VAR_INVALID] for an
      unknown name);
    - [sessions]: what [VAR_OpenPrintSession] yields for a session id, or
      [None] when the session cannot be opened, in which case the output
      parameters are left as they were;
    - [files]: the readable files and their contents;
    - [render]: the template engine applied to the bytes of a template;
    - [fds]: the descriptor table of the process; a descriptor opened on a
      path carries [Some path], any other descriptor [None];
    - [heap]: the outcomes of the next allocation requests ([true] is
      success); once exhausted every request succeeds;
    - [server]: what [VARSERVER_Open] returns;
    - [state]: the global [state] object. *)
Record World := mkWorld {
  namespace : string -> VAR_HANDLE;
  sessions : Z -> option (VAR_HANDLE * Z);
  files : string -> option (list byte);
  render : list byte -> list byte;
  fds : list (Z * option string);
  heap : list bool;
  server : VARSERVER_HANDLE;
  state : FileVarsState
}.

Definition set_fds (t : list (Z * option string)) (w : World) : World :=
  {| namespace := namespace w; sessions := sessions w; files := files w;
     render := render w; fds := t; heap := heap w; server := server w;
     state := state w |}.

Definition set_heap (h : list bool) (w : World) : World :=
  {| namespace := namespace w; sessions := sessions w; files := files w;
     render := render w; fds := fds w; heap := h; server := server w;
     state := state w |}.

Definition set_state (s : FileVarsState) (w : World) : World :=
  {| namespace := namespace w; sessions := sessions w; files := files w;
     render := render w; fds := fds w; heap := heap w; server := server w;
     state := s |}.

(** The registry is the list hanging off the global state. *)
Definition registry (w : World) : list FileVar := pFileVars (state w).

(** ** A small monad: world passing plus the events emitted *)

Record outcome (A : Type) := Out {
  value : A;
  after : World;
  emitted : list event
}.
Arguments Out {A} _ _ _.
Arguments value {A} _.
Arguments after {A} _.
Arguments emitted {A} _.

Definition M (A : Type) := World -> outcome A.

Definition ret {A} (a : A) : M A := fun w => Out a w [].

Definition bind {A B} (m : M A) (k : A -> M B) : M B :=
  fun w =>
    let r := m w in
    let r' := k (value r) (after r) in
    Out (value r') (after r') (emitted r ++ emitted r').

Declare Scope prog_scope.
Delimit Scope prog_scope with prog.
Notation "x <- m ;; k" := (bind m (fun x => k))
  (at level 61, m at next level, right associativity) : prog_scope.
Notation "m ;;; k" := (bind m (fun _ => k))
  (at level 61, right associativity) : prog_scope.
Local Open Scope prog_scope.

Definition emit (ev : event) : M unit := fun w => Out tt w [ev].
Definition get {A} (f : World -> A) : M A := fun w => Out (f w) w [].
Definition update (f : World -> World) : M unit := fun w => Out tt (f w) [].

(** ** The C library and the kernel *)

(** One allocation request: consumes the next outcome of the heap. *)
Definition alloc : M bool :=
  fun w => match heap w with
           | [] => Out true w []
           | b :: rest => Out b (set_heap rest w) []
           end.

(** [malloc( sizeof( FileVar ) )]: [true] for a non-NULL result. *)
Definition malloc : M bool := alloc.

(** [strdup]: the copy, or [NULL]. *)
Definition strdup (s : string) : M (option string) :=
  ok <- alloc ;; ret (if ok then Some s else None).

Definition in_use (n : Z) (t : list (Z * option string)) : bool :=
  existsb (fun d => fst d =? n) t.

Definition drop_fd (n : Z) (t : list (Z * option string)) : list (Z * option string) :=
  filter (fun d => negb (fst d =? n)) t.

(** POSIX: a successful [open] returns the lowest-numbered descriptor
    not currently open for the process. *)
Fixpoint lowest_from (fuel : nat) (n : Z) (t : list (Z * option string)) : Z :=
  match fuel with
  | O => n
  | S k => if in_use n t then lowest_from k (n + 1) (drop_fd n t) else n
  end.

Definition lowest_unused (t : list (Z * option string)) : Z :=
  lowest_from (List.length t) 0 t.

(** The bytes [open] would give access to: none for a [NULL] path or a
    file that is not there. *)
Definition file_at (w : World) (path : option string) : option (list byte) :=
  match path with
  | Some p => files w p
  | None => None
  end.

(** [open( path, O_RDONLY )]: the new descriptor, or -1. *)
Definition open (path : option string) : M Z :=
  fun w =>
    match file_at w path with
    | Some _ =>
        let n := lowest_unused (fds w) in
        Out n (set_fds ((n, path) :: fds w) w) [EvOpen path n]
    | None => Out (-1) w [EvOpen path (-1)]
    end.

Definition close (fd : Z) : M unit :=
  fun w => Out tt (set_fds (drop_fd fd (fds w)) w) [EvClose fd].

Fixpoint fd_lookup (n : Z) (t : list (Z * option string)) : option (option string) :=
  match t with
  | [] => None
  | (m, p) :: rest => if m =? n then Some p else fd_lookup n rest
  end.

(** ** The variable server, the template engine, the JSON library *)

(** The calls into the variable server and the template engine are
    external to the repository; they act on the [World] as section 6 of
    the specification describes them: [VAR_FindByName] is
    [resolve(name) -> handle | not-found], [VAR_Notify] is
    [subscribeForPrint(handle)], and the renderer copies the bytes of its
    input to its output channel, substituting on the way. *)
Definition VAR_FindByName (name : string) : M VAR_HANDLE :=
  fun w => Out (namespace w name) w [EvFindByName name].

Definition VAR_Notify (h : VAR_HANDLE) : M unit := emit (EvNotify h).

(** [TEMPLATE_FileToFile( hVarServer, fd_in, fd )]: the rendering of what
    [fd_in] is open on goes to [fd]. *)
Definition TEMPLATE_FileToFile (fd_in fd : Z) : M unit :=
  fun w =>
    match fd_lookup fd_in (fds w) with
    | Some path =>
        match file_at w path with
        | Some bytes => Out tt w [EvRender fd_in fd (render w bytes)]
        | None => Out tt w [EvRender fd_in fd []]
        end
    | None => Out tt w [EvRender fd_in fd []]
    end.

(** [JSON_Find( pNode, key )] on an object: the first attribute of that
    name, or [NULL]. *)
Fixpoint JSON_Find (pNode : JNode) (key : string) : option (option string) :=
  match pNode with
  | [] => None
  | (k, v) :: rest => if String.eqb k key then Some v else JSON_Find rest key
  end.

(** [pVar->var.val.str] behind the [if( pVar != NULL )] guard. *)
Definition str_of (pVar : option (option string)) : option string :=
  match pVar with
  | Some v => v
  | None => None
  end.

(** [VAR_OpenPrintSession( hVarServer, sigval, &hVar, &fd )] writes the
    handle and the output descriptor of the session through its two output
    parameters; [main] keeps them in locals declared outside the loop, so
    after a failed call they still hold what the previous iteration left.
    The output channel is a descriptor of the process from the acquisition
    of the session to its release (section 4.3 of the specification:
    [acquire(sessionToken) -> (variableHandle, outputChannel)] and
    [release(sessionToken)]). *)
Record Locals := mkLocals {
  l_hVar : VAR_HANDLE;
  l_fd : Z
}.

Definition VAR_OpenPrintSession (sigval : Z) (l : Locals) : M Locals :=
  fun w =>
    match sessions w sigval with
    | Some (h, fd) =>
        Out {| l_hVar := h; l_fd := fd |}
            (set_fds ((fd, None) :: fds w) w)
            [EvOpenPrintSession sigval]
    | None => Out l w [EvOpenPrintSession sigval]
    end.

Definition VAR_ClosePrintSession (sigval fd : Z) : M unit :=
  fun w =>
    Out tt (set_fds (drop_fd fd (fds w)) w) [EvClosePrintSession sigval fd].

Definition VARSERVER_Open : M VARSERVER_HANDLE := get server.

Definition VARSERVER_Close : M unit := emit EvServerClose.

(** Modelled from the spec: [JSON_Iterate] belongs to the tjson library,
    which is not part of this repository.  Sections 6 and 9 of the
    specification say that the callback is invoked once per configuration
    record, in the order of the sequence, and that the pass goes on to the
    next record whatever the callback returned.  Its [int] result is
    discarded at its only call site (line 176), so it is not modelled.  A
    [NULL] array (no ["config"] key, or no configuration file) has no
    records. *)
Fixpoint JSON_IterateNodes {P : Type} (nodes : list JNode)
    (fn : JNode -> P -> M Z) (arg : P) : M unit :=
  match nodes with
  | [] => ret tt
  | pNode :: rest =>
      _ <- fn pNode arg ;;
      JSON_IterateNodes rest fn arg
  end.

Definition JSON_Iterate {P : Type} (cfg : option (list JNode))
    (fn : JNode -> P -> M Z) (arg : P) : M unit :=
  match cfg with
  | Some nodes => JSON_IterateNodes nodes fn arg
  | None => ret tt
  end.

(** ** The program *)

(** What can wake the process while it is blocked in
    [VARSERVER_WaitSignal]: a signal of the variable server with its value,
    or SIGTERM/SIGINT, which run [TerminationHandler]. *)
Inductive stimulus :=
| Signal (sig sigval : Z)
| Terminate (signum : Z).

(** Where the process is once its input is used up. *)
Inductive status :=
| Waiting (l : Locals)      (* blocked in VARSERVER_WaitSignal *)
| Exited (code : Z)         (* exit( code ) *)
| Returned.                 (* main returned *)

Definition push_front (e : FileVar) (w : World) : World :=
  set_state {| hVarServer := hVarServer (state w);
               verbose := verbose (state w);
               pFileName := pFileName (state w);
               pFileVars := e :: pFileVars (state w) |} w.

Definition set_hVarServer (h : VARSERVER_HANDLE) (w : World) : World :=
  set_state {| hVarServer := h;
               verbose := verbose (state w);
               pFileName := pFileName (state w);
               pFileVars := pFileVars (state w) |} w.

Section Program.

(** Two constants of <varserver/varserver.h>, which is not part of the
    repository: the invalid-handle sentinel and the number of the print
    signal.  Nothing below depends on their values. *)
Variable VAR_INVALID : VAR_HANDLE.
Variable SIG_VAR_PRINT : Z.

(** Lines 228-276. *)
Definition SetupFileVar (pNode : JNode) (arg : StatePtr) : M Z :=
  match arg with
  | NullPtr => ret EINVAL
  | AddrOfState =>
      let varname := str_of (JSON_Find pNode "var") in
      let filename := str_of (JSON_Find pNode "file") in
      match varname, filename with
      | Some varname, Some filename =>
          pFilevar <- malloc ;;
          if (pFilevar : bool) then
            h <- VAR_FindByName varname ;;
            f <- strdup filename ;;
            VAR_Notify h ;;;
            update (push_front {| hVar := h; pFilename := f |}) ;;;
            ret EOK
          else ret EINVAL
      | _, _ => ret EINVAL
      end
  end.

(** Lines 321-326: the body of the [if] taken at the matching node. *)
Definition render_file (pFileVar : FileVar) (fd : Z) : M unit :=
  fd_in <- open (pFilename pFileVar) ;;
  if fd_in >? 0 then
    TEMPLATE_FileToFile fd_in fd ;;;
    close fd_in
  else ret tt.

(** Lines 316-333: the [while] loop over the list, leaving through
    [break] at the first node whose handle is the requested one. *)
Fixpoint scan (pFileVar : list FileVar) (h : VAR_HANDLE) (fd : Z) : M Z :=
  match pFileVar with
  | [] => ret ENOENT
  | e :: pNext =>
      if hVar e =? h then
        emit (EvTest e true) ;;;
        render_file e fd ;;;
        ret EOK
      else
        emit (EvTest e false) ;;;
        scan pNext h fd
  end.

(** Lines 305-337. *)
Definition PrintFileVar (pState : StatePtr) (h : VAR_HANDLE) (fd : Z) : M Z :=
  match pState with
  | NullPtr => ret EINVAL
  | AddrOfState =>
      if negb (h =? VAR_INVALID) then
        l <- get registry ;;
        scan l h fd
      else ret EINVAL
  end.

(** Lines 473-480; the value is the argument of [exit]. *)
Definition TerminationHandler : M Z :=
  VARSERVER_Close ;;;
  emit (EvSyslog "Abnormal termination of filevars") ;;;
  ret 1.

(** Lines 180-197: one turn of the [while( 1 )] loop, woken by the signal
    [sig] carrying [sigval]. *)
Definition loop_body (sig sigval : Z) (l : Locals) : M Locals :=
  emit (EvWaitSignal sig sigval) ;;;
  if sig =? SIG_VAR_PRINT then
    l' <- VAR_OpenPrintSession sigval l ;;
    _ <- PrintFileVar AddrOfState (l_hVar l') (l_fd l') ;;
    VAR_ClosePrintSession sigval (l_fd l') ;;;
    ret l'
  else ret l.

(** Lines 178-198 run against a finite prefix of what the process
    receives.  The loop has no exit of its own: it ends only in
    [TerminationHandler], taken here between two turns. *)
Fixpoint dispatch_loop (inputs : list stimulus) (l : Locals) : M status :=
  match inputs with
  | [] => ret (Waiting l)
  | Signal sig sigval :: rest =>
      l' <- loop_body sig sigval l ;;
      dispatch_loop rest l'
  | Terminate _ :: _ =>
      code <- TerminationHandler ;;
      ret (Exited code)
  end.

(** ** The command line (lines 354-424) *)

(** Lines 354-365: the usage message goes to stderr, unless the command
    name is [NULL]. *)
Definition usage (cmdname : option string) : M unit :=
  match cmdname with
  | Some _ => emit EvUsage
  | None => ret tt
  end.

(** What one call of [getopt( argC, argV, "hvf:" )] can return before it
    returns -1: one of the two flags, ['f'] together with its argument in
    [optarg], or ['?'] for an option character that is not in the string
    or for a ['f'] that lacks its argument. *)
Inductive getopt_item :=
| Got_h
| Got_v
| Got_f (optarg : string)
| Got_unknown.

Definition set_verbose (b : bool) (w : World) : World :=
  set_state {| hVarServer := hVarServer (state w);
               verbose := b;
               pFileName := pFileName (state w);
               pFileVars := pFileVars (state w) |} w.

Definition set_pFileName (f : option string) (w : World) : World :=
  set_state {| hVarServer := hVarServer (state w);
               verbose := verbose (state w);
               pFileName := f;
               pFileVars := pFileVars (state w) |} w.

(** Lines 400-420: the [while] loop over the results of [getopt], given
    here as the list [items] of what the successive calls return, and the
    [switch] on each of them. *)
Fixpoint ProcessOptions_loop (items : list getopt_item) (argV0 : option string) : M unit :=
  match items with
  | [] => ret tt
  | c :: rest =>
      match c with
      | Got_v => update (set_verbose true)
      | Got_h => usage argV0
      | Got_f optarg =>
          f <- strdup optarg ;;
          update (set_pFileName f)
      | Got_unknown => ret tt
      end ;;;
      ProcessOptions_loop rest argV0
  end.

(** Lines 391-424.  [argV] is the argument vector, [None] for [NULL];
    [argV[0]] is its first element, [NULL] when there is none. *)
Definition ProcessOptions (items : list getopt_item) (argV : option (list string))
    (pState : StatePtr) : M Z :=
  match pState, argV with
  | AddrOfState, Some args =>
      ProcessOptions_loop items (hd_error args) ;;;
      ret 0
  | _, _ => ret 0
  end.

(** The argument of the last [-f] among the options, if any. *)
Fixpoint last_f (items : list getopt_item) : option string :=
  match items with
  | [] => None
  | Got_f optarg :: rest =>
      match last_f rest with
      | Some later => Some later
      | None => Some optarg
      end
  | _ :: rest => last_f rest
  end.

Definition is_Got_v (c : getopt_item) : bool :=
  match c with Got_v => true | _ => false end.

Definition is_Got_h (c : getopt_item) : bool :=
  match c with Got_h => true | _ => false end.

Definition is_Got_f (c : getopt_item) : bool :=
  match c with Got_f _ => true | _ => false end.

(** Lines 139-203.  [argV] is the argument vector and [items] what the
    successive calls of [getopt] return on it; [cfg] is what
    [JSON_Find( config, "config" )] gave for the file that [JSON_Process]
    read, and [l0] the indeterminate initial contents of the locals
    [hVar] and [fd].  The handler that [SetupTerminationHandler] installs
    is what answers the [Terminate] stimuli of [dispatch_loop]. *)
Definition main (argc : Z) (argV : list string) (items : list getopt_item)
    (cfg : option (list JNode)) (inputs : list stimulus) (l0 : Locals) : M status :=
  update (set_state zero_state) ;;;
  if argc <? 2 then
    usage (hd_error argV) ;;;
    ret (Exited 1)
  else
    _ <- ProcessOptions items (Some argV) AddrOfState ;;
    h <- VARSERVER_Open ;;
    update (set_hVarServer h) ;;;
    match h with
    | Some _ =>
        JSON_Iterate cfg SetupFileVar AddrOfState ;;;
        dispatch_loop inputs l0
    | None => ret Returned
    end.

(** The process when [main] gets to [VARSERVER_Open] (line 172): the
    state cleared and the options processed. *)
Definition after_options (argV : list string) (items : list getopt_item)
    (w : World) : World :=
  after (ProcessOptions items (Some argV) AddrOfState (set_state zero_state w)).

(** ** The registry as a mapping *)

(** The specification's [lookup(handle)]: the entry a dispatch for
    [h] settles on.  Lemma [PrintFileVar_lookup] below shows that this is
    what [PrintFileVar] does. *)
Definition lookup_in (l : list FileVar) (h : VAR_HANDLE) : option FileVar :=
  if h =? VAR_INVALID then None
  else find (fun e => hVar e =? h) l.

Definition lookup (w : World) (h : VAR_HANDLE) : option FileVar :=
  lookup_in (registry w) h.

(** ** The registration pass as a function

    What the pass of line 176 does to the registry and to the heap depends
    only on the records, on the namespace and on the heap; it is spelled
    out here as plain functions, which lemmas [SetupFileVar_effect] and
    [registration_pass_effect] prove equal to the program. *)

Definition set_registry (l : list FileVar) (w : World) : World :=
  set_state {| hVarServer := hVarServer (state w);
               verbose := verbose (state w);
               pFileName := pFileName (state w);
               pFileVars := l |} w.

Definition take_alloc (hp : list bool) : bool * list bool :=
  match hp with
  | [] => (true, [])
  | b :: rest => (b, rest)
  end.

Definition node_list (oe : option FileVar) : list FileVar :=
  match oe with
  | Some e => [e]
  | None => []
  end.

(** The node one call of [SetupFileVar] links in, if any, and the heap it
    leaves. *)
Definition setup_effect (ns : string -> VAR_HANDLE) (pNode : JNode)
    (hp : list bool) : option FileVar * list bool :=
  match str_of (JSON_Find pNode "var"), str_of (JSON_Find pNode "file") with
  | Some varname, Some filename =>
      let (ok, hp1) := take_alloc hp in
      if ok then
        let (ok2, hp2) := take_alloc hp1 in
        (Some {| hVar := ns varname;
                 pFilename := if ok2 then Some filename else None |}, hp2)
      else (None, hp1)
  | _, _ => (None, hp)
  end.

(** The nodes a pass over [cfg] puts in front of the list (the last one
    registered first) and the heap it leaves. *)
Fixpoint pass_effect (ns : string -> VAR_HANDLE) (cfg : list JNode)
    (hp : list bool) : list FileVar * list bool :=
  match cfg with
  | [] => ([], hp)
  | pNode :: rest =>
      let (oe, hp1) := setup_effect ns pNode hp in
      let (added, hp2) := pass_effect ns rest hp1 in
      (added ++ node_list oe, hp2)
  end.

(** ** What can be observed of a run *)

Definition is_release (ev : event) : bool :=
  match ev with EvClosePrintSession _ _ => true | _ => false end.

Definition is_acquire (ev : event) : bool :=
  match ev with EvOpenPrintSession _ => true | _ => false end.

Definition is_render (ev : event) : bool :=
  match ev with EvRender _ _ _ => true | _ => false end.

Definition is_open (ev : event) : bool :=
  match ev with EvOpen _ _ => true | _ => false end.

Definition is_close (ev : event) : bool :=
  match ev with EvClose _ => true | _ => false end.

Definition is_test (ev : event) : bool :=
  match ev with EvTest _ _ => true | _ => false end.

Definition count (p : event -> bool) (evs : list event) : nat :=
  List.length (filter p evs).

(** The bytes that reached the output channel [out]. *)
Definition delivered_to (out : Z) (evs : list event) : list byte :=
  flat_map (fun ev => match ev with
                      | EvRender _ o bytes => if o =? out then bytes else []
                      | _ => []
                      end) evs.

(** The events a dispatch step is made of: the tests of the scan and the
    three calls of [render_file]. *)
Definition is_dispatch (ev : event) : bool :=
  is_test ev || is_open ev || is_render ev || is_close ev.

(** The print notifications a run of the loop gets to see: those that
    arrive before the process is told to terminate. *)
Fixpoint print_notifications (inputs : list stimulus) : nat :=
  match inputs with
  | [] => O
  | Signal sig _ :: rest =>
      if sig =? SIG_VAR_PRINT then S (print_notifications rest)
      else print_notifications rest
  | Terminate _ :: _ => O
  end.

(** The registration pass of line 176. *)
Definition registration_pass (cfg : list JNode) : M unit :=
  JSON_Iterate (Some cfg) SetupFileVar AddrOfState.

(** Whether the next [n] allocation requests succeed. *)
Definition allocs_succeed (n : nat) (w : World) : bool :=
  forallb (fun b : bool => b) (firstn n (heap w)).

(** The events of a scan that walks past every node of [l]. *)
Definition misses (l : list FileVar) : list event :=
  map (fun e => EvTest e false) l.

(** The calls [SetupFileVar] makes when it links in the node [oe]. *)
Definition setup_events (pNode : JNode) (oe : option FileVar) : list event :=
  match oe, str_of (JSON_Find pNode "var") with
  | Some e, Some varname => [EvFindByName varname; EvNotify (hVar e)]
  | _, _ => []
  end.

(** ** The ways a dispatch step can go

    [render_file] and [PrintFileVar] each have three outcomes; the two
    predicates below list them, and lemmas [render_file_cases] and
    [PrintFileVar_cases] show that there is no other. *)

Inductive render_case (e : FileVar) (fd : Z) (w : World) : outcome unit -> Prop :=
| Unreadable :
    file_at w (pFilename e) = None ->
    render_case e fd w (Out tt w [EvOpen (pFilename e) (-1)])
| Rendered (bytes : list byte) :
    file_at w (pFilename e) = Some bytes ->
    in_use 0 (fds w) = true ->
    render_case e fd w
      (Out tt w [EvOpen (pFilename e) (lowest_unused (fds w));
                 EvRender (lowest_unused (fds w)) fd (render w bytes);
                 EvClose (lowest_unused (fds w))])
| OnDescriptorZero (bytes : list byte) :
    file_at w (pFilename e) = Some bytes ->
    in_use 0 (fds w) = false ->
    render_case e fd w
      (Out tt (set_fds ((0, pFilename e) :: fds w) w) [EvOpen (pFilename e) 0]).

Inductive dispatch_case (pState : StatePtr) (h : VAR_HANDLE) (fd : Z) (w : World) :
    outcome Z -> Prop :=
| Rejected :
    pState = NullPtr \/ h = VAR_INVALID ->
    dispatch_case pState h fd w (Out EINVAL w [])
| Missed :
    pState = AddrOfState -> h <> VAR_INVALID -> lookup w h = None ->
    dispatch_case pState h fd w (Out ENOENT w (misses (registry w)))
| Matched (e : FileVar) (l1 l2 : list FileVar) :
    pState = AddrOfState -> lookup w h = Some e ->
    registry w = l1 ++ e :: l2 ->
    (forall e', In e' l1 -> hVar e' <> h) ->
    dispatch_case pState h fd w
      (Out EOK (after (render_file e fd w))
           (misses l1 ++ EvTest e true :: emitted (render_file e fd w))).

(** ** More observations *)

Definition is_usage (ev : event) : bool :=
  match ev with EvUsage => true | _ => false end.

Definition is_server_close (ev : event) : bool :=
  match ev with EvServerClose => true | _ => false end.

(** The events that are calls into the variable server. *)
Definition is_server_call (ev : event) : bool :=
  match ev with
  | EvFindByName _ | EvNotify _ | EvWaitSignal _ _
  | EvOpenPrintSession _ | EvClosePrintSession _ _ | EvServerClose => true
  | _ => false
  end.

(** The handles [VAR_Notify] was called for, in the order of the calls. *)
Definition notified (evs : list event) : list VAR_HANDLE :=
  flat_map (fun ev => match ev with EvNotify h => [h] | _ => [] end) evs.

(** The nodes the scan compared with the requested handle, in order. *)
Definition tested (evs : list event) : list FileVar :=
  flat_map (fun ev => match ev with EvTest e _ => [e] | _ => [] end) evs.

Definition is_terminate (i : stimulus) : bool :=
  match i with Terminate _ => true | Signal _ _ => false end.

(** A signal of the variable server other than the print signal. *)
Definition is_other_signal (i : stimulus) : bool :=
  match i with
  | Signal sig _ => negb (sig =? SIG_VAR_PRINT)
  | Terminate _ => false
  end.

(** The waits that return for the signals among [inputs]. *)
Definition waits (inputs : list stimulus) : list event :=
  flat_map (fun i => match i with
                     | Signal sig sigval => [EvWaitSignal sig sigval]
                     | Terminate _ => []
                     end) inputs.

(** The node a record asks for when memory is available: none unless it
    has both of its strings. *)
Definition record_node (ns : string -> VAR_HANDLE) (pNode : JNode) : option FileVar :=
  match str_of (JSON_Find pNode "var"), str_of (JSON_Find pNode "file") with
  | Some varname, Some filename =>
      Some {| hVar := ns varname; pFilename := Some filename |}
  | _, _ => None
  end.

(** ** Sample data

    A small installation used to exercise the statements below: three
    variables are known to the server, ["A"] (handle 5), ["B"] (handle 6)
    and ["C"] (handle 7, not configured here); one template exists.  The
    values taken for [VAR_INVALID] and [SIG_VAR_PRINT] are of no
    consequence. *)

Definition sample_VAR_INVALID : VAR_HANDLE := 0.
Definition sample_SIG_VAR_PRINT : Z := 42.

Definition sample_record (varname filename : string) : JNode :=
  [("var"%string, Some varname); ("file"%string, Some filename)].

Definition sample_namespace (name : string) : VAR_HANDLE :=
  if String.eqb name "A" then 5
  else if String.eqb name "B" then 6
  else if String.eqb name "C" then 7
  else sample_VAR_INVALID.

Definition sample_sessions (sigval : Z) : option (VAR_HANDLE * Z) :=
  if sigval =? 1 then Some (5, 10)
  else if sigval =? 2 then Some (6, 11)
  else if sigval =? 3 then Some (7, 12)
  else None.

Definition sample_files (path : string) : option (list byte) :=
  if String.eqb path "/tmp/a.tpl" then Some [x68; x69] else None.

(** A renderer that leaves the bytes as they are. *)
Definition sample_render (bytes : list byte) : list byte := bytes.

(** The process right after [main] has cleared its state: the three
    standard descriptors are open and memory is plentiful. *)
Definition sample_world : World :=
  {| namespace := sample_namespace;
     sessions := sample_sessions;
     files := sample_files;
     render := sample_render;
     fds := [(0, None); (1, None); (2, None)];
     heap := [];
     server := Some 1;
     state := zero_state |}.

Definition sample_a : FileVar :=
  {| hVar := 5; pFilename := Some "/tmp/a.tpl"%string |}.

Definition sample_b : FileVar :=
  {| hVar := 6; pFilename := Some "/tmp/b.tpl"%string |}.

(** The same process once ["A"] and ["B"] have been registered; the
    template of ["B"] does not exist. *)
Definition sample_running : World :=
  set_registry [sample_b; sample_a] sample_world.

(** The same, started with its standard input closed: descriptor 0 is
    free. *)
Definition sample_no_stdin : World :=
  set_fds [(1, None); (2, None)] sample_running.

(** A server on which ["B"] is an alias of ["A"]: both names resolve to
    handle 5. *)
Definition alias_namespace (name : string) : VAR_HANDLE :=
  if String.eqb name "A" then 5
  else if String.eqb name "B" then 5
  else sample_VAR_INVALID.

Definition alias_world : World :=
  {| namespace := alias_namespace;
     sessions := sample_sessions;
     files := sample_files;
     render := sample_render;
     fds := [(0, None); (1, None); (2, None)];
     heap := [];
     server := Some 1;
     state := zero_state |}.

Definition sample_locals : Locals := {| l_hVar := 0; l_fd := 0 |}.

(** The command line [filevars -f /etc/filevars.json] and what [getopt]
    returns on it. *)
Definition sample_argV : list string :=
  ["filevars"%string; "-f"%string; "/etc/filevars.json"%string].

Definition sample_items : list getopt_item := [Got_f "/etc/filevars.json"].

(** ** Descriptors *)

Lemma drop_fd_shorter (n : Z) (t : list (Z * option string)) :
  in_use n t = true -> (List.length (drop_fd n t) < List.length t)%nat.
Proof.
  unfold in_use, drop_fd. induction t as [|d t' IH]; [discriminate|].
  simpl. destruct (fst d =? n); simpl; intro H.
  - pose proof (filter_length_le (fun d0 => negb (fst d0 =? n)) t'). lia.
  - specialize (IH H). lia.
Qed.

Lemma lowest_from_spec (fuel : nat) :
  forall n t, (List.length t <= fuel)%nat ->
    n <= lowest_from fuel n t /\ in_use (lowest_from fuel n t) t = false.
Proof.
  induction fuel as [|k IH]; intros n t Hlen; simpl.
  - destruct t as [|d t']; [split; [lia | reflexivity] | simpl in Hlen; lia].
  - destruct (in_use n t) eqn:Hn; [|split; [lia | exact Hn]].
    pose proof (drop_fd_shorter n t Hn) as Hshort.
    destruct (IH (n + 1) (drop_fd n t) ltac:(lia)) as [Hle Hfree].
    split; [lia|].
    unfold in_use in *. apply not_true_is_false. intro Hin.
    apply existsb_exists in Hin. destruct Hin as [d [Hd Heq]].
    assert (Hex : existsb (fun d0 => fst d0 =? lowest_from k (n + 1) (drop_fd n t))
                          (drop_fd n t) = true).
    { apply existsb_exists. exists d. split; [|exact Heq].
      unfold drop_fd. apply filter_In. split; [exact Hd|].
      apply Z.eqb_eq in Heq. apply negb_true_iff, Z.eqb_neq. lia. }
    rewrite Hex in Hfree. discriminate.
Qed.

Lemma lowest_unused_free (t : list (Z * option string)) :
  in_use (lowest_unused t) t = false.
Proof. unfold lowest_unused. apply lowest_from_spec. lia. Qed.

Lemma lowest_unused_nonneg (t : list (Z * option string)) :
  0 <= lowest_unused t.
Proof. unfold lowest_unused. apply lowest_from_spec. lia. Qed.

Lemma lowest_unused_zero (t : list (Z * option string)) :
  in_use 0 t = false -> lowest_unused t = 0.
Proof.
  unfold lowest_unused. intro H.
  destruct (List.length t); simpl; [reflexivity|]. now rewrite H.
Qed.

Lemma lowest_unused_pos (t : list (Z * option string)) :
  in_use 0 t = true -> 0 < lowest_unused t.
Proof.
  intro H. pose proof (lowest_unused_free t) as Hfree.
  pose proof (lowest_unused_nonneg t) as Hge.
  destruct (Z.eq_dec (lowest_unused t) 0) as [E|E]; [|lia].
  rewrite E in Hfree. congruence.
Qed.

Lemma drop_fd_free (n : Z) (t : list (Z * option string)) :
  in_use n t = false -> drop_fd n t = t.
Proof.
  unfold in_use, drop_fd. induction t as [|d t' IH]; intro H; [reflexivity|].
  simpl in *. apply orb_false_iff in H. destruct H as [Hd Ht].
  rewrite Hd. simpl. now rewrite IH.
Qed.

Lemma set_fds_same (w : World) : set_fds (fds w) w = w.
Proof. now destruct w. Qed.

(** ** The matching node: [render_file] *)

Lemma file_at_set_fds (t : list (Z * option string)) (w : World) (p : option string) :
  file_at (set_fds t w) p = file_at w p.
Proof. now destruct p. Qed.

(** The file cannot be opened: [open] answers -1 and nothing else happens. *)
Lemma render_file_unreadable (e : FileVar) (fd : Z) (w : World) :
  file_at w (pFilename e) = None ->
  render_file e fd w = Out tt w [EvOpen (pFilename e) (-1)].
Proof.
  intro H. unfold render_file, bind, open. rewrite H. reflexivity.
Qed.

(** The file opens on a positive descriptor: rendered, then closed, and
    the descriptor table is as before. *)
Lemma render_file_readable (e : FileVar) (fd : Z) (w : World) (bytes : list byte) :
  file_at w (pFilename e) = Some bytes ->
  0 < lowest_unused (fds w) ->
  render_file e fd w =
    Out tt w [EvOpen (pFilename e) (lowest_unused (fds w));
              EvRender (lowest_unused (fds w)) fd (render w bytes);
              EvClose (lowest_unused (fds w))].
Proof.
  intros Hfile Hpos. unfold render_file, bind, open. rewrite Hfile.
  cbn [value after emitted].
  assert (Hgt : (lowest_unused (fds w) >? 0) = true) by (apply Z.gtb_lt; lia).
  rewrite Hgt. unfold TEMPLATE_FileToFile, close. cbn [fds set_fds fd_lookup].
  rewrite Z.eqb_refl, file_at_set_fds, Hfile. cbn [value after emitted app].
  f_equal. cbn [fds set_fds drop_fd filter fst]. rewrite Z.eqb_refl. cbn [negb].
  fold (drop_fd (lowest_unused (fds w)) (fds w)).
  rewrite drop_fd_free by apply lowest_unused_free.
  now destruct w.
Qed.

(** The file opens on descriptor 0: the test [fd_in > 0] fails, so the
    file is neither rendered nor closed. *)
Lemma render_file_descriptor_zero (e : FileVar) (fd : Z) (w : World) (bytes : list byte) :
  file_at w (pFilename e) = Some bytes ->
  in_use 0 (fds w) = false ->
  render_file e fd w =
    Out tt (set_fds ((0, pFilename e) :: fds w) w) [EvOpen (pFilename e) 0].
Proof.
  intros Hfile Hfree. unfold render_file, bind, open. rewrite Hfile.
  rewrite (lowest_unused_zero _ Hfree). reflexivity.
Qed.

Lemma render_file_cases (e : FileVar) (fd : Z) (w : World) :
  render_case e fd w (render_file e fd w).
Proof.
  destruct (file_at w (pFilename e)) as [bytes|] eqn:Hfile.
  - destruct (in_use 0 (fds w)) eqn:H0.
    + rewrite (render_file_readable e fd w bytes Hfile (lowest_unused_pos _ H0)).
      now apply Rendered.
    + rewrite (render_file_descriptor_zero e fd w bytes Hfile H0).
      now apply OnDescriptorZero with bytes.
  - rewrite (render_file_unreadable e fd w Hfile). now apply Unreadable.
Qed.

(** Whatever happens, [render_file] emits only dispatch events, renders
    at most once and leaves everything but the descriptor table alone. *)
Lemma render_file_events (e : FileVar) (fd : Z) (w : World) :
  forallb is_dispatch (emitted (render_file e fd w)) = true /\
  (count is_render (emitted (render_file e fd w)) <= 1)%nat /\
  count is_test (emitted (render_file e fd w)) = 0%nat.
Proof.
  destruct (render_file_cases e fd w); cbn; repeat split; lia.
Qed.

Lemma render_file_frame (e : FileVar) (fd : Z) (w : World) :
  exists t, after (render_file e fd w) = set_fds t w.
Proof.
  destruct (render_file_cases e fd w); cbn [after];
    solve [exists (fds w); now rewrite set_fds_same | eexists; reflexivity].
Qed.

(** ** The scan *)

Lemma scan_miss (l : list FileVar) (h : VAR_HANDLE) (fd : Z) (w : World) :
  (forall e, In e l -> hVar e <> h) ->
  scan l h fd w = Out ENOENT w (misses l).
Proof.
  induction l as [|e l' IH]; intro Hno; [reflexivity|].
  cbn [scan]. destruct (hVar e =? h) eqn:He.
  - apply Z.eqb_eq in He. exfalso. apply (Hno e); [now left | exact He].
  - unfold bind, emit. cbn [value after emitted].
    rewrite IH by (intros e' Hin; apply Hno; now right). reflexivity.
Qed.

Lemma scan_hit (l1 l2 : list FileVar) (e : FileVar) (h : VAR_HANDLE) (fd : Z) (w : World) :
  (forall e', In e' l1 -> hVar e' <> h) ->
  hVar e = h ->
  scan (l1 ++ e :: l2) h fd w =
    Out EOK (after (render_file e fd w))
        (misses l1 ++ EvTest e true :: emitted (render_file e fd w)).
Proof.
  induction l1 as [|e1 l1' IH]; intros Hno He.
  - cbn [app scan misses map]. apply Z.eqb_eq in He. rewrite He.
    unfold bind, emit, ret. cbn [value after emitted app].
    now rewrite app_nil_r.
  - cbn [app scan]. destruct (hVar e1 =? h) eqn:H1.
    + apply Z.eqb_eq in H1. exfalso. apply (Hno e1); [now left | exact H1].
    + unfold bind, emit. cbn [value after emitted].
      rewrite IH; [reflexivity | | exact He].
      intros e' Hin. apply Hno. now right.
Qed.

(** [find] splits the list at the node it returns. *)
Lemma find_split {A : Type} (f : A -> bool) (l : list A) (x : A) :
  find f l = Some x ->
  exists l1 l2, l = l1 ++ x :: l2 /\ f x = true /\ forall y, In y l1 -> f y = false.
Proof.
  induction l as [|a l' IH]; [discriminate|].
  cbn [find]. destruct (f a) eqn:Ha; intro H.
  - injection H as <-. exists [], l'. repeat split; [exact Ha | intros y []].
  - destruct (IH H) as [l1 [l2 [Hl [Hx Hpre]]]].
    exists (a :: l1), l2. repeat split; [now rewrite Hl | exact Hx |].
    intros y [<-|Hy]; [exact Ha | now apply Hpre].
Qed.

(** The scan of [PrintFileVar] implements [lookup]: a miss. *)
Lemma PrintFileVar_lookup_none (h : VAR_HANDLE) (fd : Z) (w : World) :
  h <> VAR_INVALID ->
  lookup w h = None ->
  PrintFileVar AddrOfState h fd w = Out ENOENT w (misses (registry w)).
Proof.
  intros Hv Hl. unfold PrintFileVar, lookup, lookup_in in *.
  apply Z.eqb_neq in Hv. rewrite Hv in *. cbn [negb].
  unfold bind, get. cbn [value after emitted app].
  rewrite scan_miss; [reflexivity|].
  intros e Hin. apply Z.eqb_neq. exact (find_none _ _ Hl e Hin).
Qed.

(** The scan of [PrintFileVar] implements [lookup]: a hit.  The nodes in
    front of the one found are tested and passed over, the one found is
    handed to [render_file], the nodes behind it are not looked at. *)
Lemma PrintFileVar_lookup_some (h : VAR_HANDLE) (fd : Z) (w : World) (e : FileVar) :
  lookup w h = Some e ->
  h <> VAR_INVALID /\ hVar e = h /\
  exists l1 l2,
    registry w = l1 ++ e :: l2 /\
    (forall e', In e' l1 -> hVar e' <> h) /\
    PrintFileVar AddrOfState h fd w =
      Out EOK (after (render_file e fd w))
          (misses l1 ++ EvTest e true :: emitted (render_file e fd w)).
Proof.
  unfold lookup, lookup_in, PrintFileVar. destruct (h =? VAR_INVALID) eqn:Hv; [discriminate|].
  intro Hf. destruct (find_split _ _ _ Hf) as [l1 [l2 [Hl [He Hpre]]]].
  apply Z.eqb_eq in He. apply Z.eqb_neq in Hv.
  assert (Hno : forall e', In e' l1 -> hVar e' <> h)
    by (intros e' Hin; apply Z.eqb_neq, Hpre, Hin).
  repeat split; [exact Hv | exact He |].
  exists l1, l2. repeat split; [exact Hl | exact Hno |].
  cbn [negb]. unfold bind, get. cbn [value after emitted app].
  rewrite Hl. now rewrite scan_hit.
Qed.

(** A handle with no node in the list is not found. *)
Lemma lookup_unregistered (w : World) (h : VAR_HANDLE) :
  (forall e, In e (registry w) -> hVar e <> h) -> lookup w h = None.
Proof.
  intro Hno. unfold lookup, lookup_in. destruct (h =? VAR_INVALID); [reflexivity|].
  destruct (find _ (registry w)) as [e|] eqn:Hf; [|reflexivity].
  apply find_some in Hf. destruct Hf as [Hin He].
  apply Z.eqb_eq in He. now destruct (Hno e Hin).
Qed.

(** Invalid arguments: nothing is done at all. *)
Lemma PrintFileVar_invalid (pState : StatePtr) (h : VAR_HANDLE) (fd : Z) (w : World) :
  pState = NullPtr \/ h = VAR_INVALID ->
  PrintFileVar pState h fd w = Out EINVAL w [].
Proof.
  intros [-> | ->]; [reflexivity|].
  unfold PrintFileVar. rewrite Z.eqb_refl. now destruct pState.
Qed.

(** The three ways of a dispatch step, and no other. *)
Lemma PrintFileVar_cases (pState : StatePtr) (h : VAR_HANDLE) (fd : Z) (w : World) :
  dispatch_case pState h fd w (PrintFileVar pState h fd w).
Proof.
  destruct pState as [|] eqn:Hp.
  - rewrite PrintFileVar_invalid by now left. apply Rejected. now left.
  - destruct (Z.eq_dec h VAR_INVALID) as [Hv|Hv].
    + rewrite PrintFileVar_invalid by now right. apply Rejected. now right.
    + destruct (lookup w h) as [e|] eqn:Hl.
      * destruct (PrintFileVar_lookup_some h fd w e Hl) as [_ [_ [l1 [l2 [Hreg [Hpre ->]]]]]].
        now apply Matched with l2.
      * rewrite (PrintFileVar_lookup_none h fd w Hv Hl). now apply Missed.
Qed.

Lemma count_app (p : event -> bool) (a b : list event) :
  count p (a ++ b) = (count p a + count p b)%nat.
Proof. unfold count. now rewrite filter_app, length_app. Qed.

Lemma count_none (p : event -> bool) (l : list event) :
  (forall ev, In ev l -> p ev = false) -> count p l = 0%nat.
Proof.
  unfold count. induction l as [|a l' IH]; intro H; [reflexivity|].
  cbn [filter]. rewrite (H a) by now left. apply IH. intros ev Hin. apply H. now right.
Qed.

Lemma misses_tests_only (l : list FileVar) (ev : event) :
  In ev (misses l) -> exists e, In e l /\ ev = EvTest e false.
Proof.
  unfold misses. intro H. apply in_map_iff in H. destruct H as [e [<- Hin]]. now exists e.
Qed.

Lemma delivered_to_app (out : Z) (a b : list event) :
  delivered_to out (a ++ b) = delivered_to out a ++ delivered_to out b.
Proof. unfold delivered_to. apply flat_map_app. Qed.

Lemma delivered_to_misses (out : Z) (l : list FileVar) :
  delivered_to out (misses l) = [].
Proof. induction l as [|e l' IH]; [reflexivity | exact IH]. Qed.

Lemma forallb_dispatch_misses (l : list FileVar) :
  forallb is_dispatch (misses l) = true.
Proof. induction l as [|e l' IH]; [reflexivity | exact IH]. Qed.

(** Every event of a dispatch step is a test of the scan or one of the
    calls of [render_file]: the step never touches a print session. *)
Lemma PrintFileVar_dispatch_events (pState : StatePtr) (h : VAR_HANDLE) (fd : Z) (w : World) :
  forallb is_dispatch (emitted (PrintFileVar pState h fd w)) = true.
Proof.
  destruct (PrintFileVar_cases pState h fd w) as [ | | e l1 l2 _ _ _ _]; cbn [emitted].
  - reflexivity.
  - apply forallb_dispatch_misses.
  - rewrite forallb_app, forallb_dispatch_misses.
    cbn [forallb is_dispatch is_test orb andb]. apply render_file_events.
Qed.

Lemma dispatch_not_release (l : list event) :
  forallb is_dispatch l = true -> count is_release l = 0%nat /\ count is_acquire l = 0%nat.
Proof.
  intro H. rewrite forallb_forall in H.
  split; apply count_none; intros ev Hin; specialize (H ev Hin); now destruct ev.
Qed.

(** The dispatch step changes nothing but the descriptor table; in
    particular the registry is read-only. *)
Lemma PrintFileVar_frame (pState : StatePtr) (h : VAR_HANDLE) (fd : Z) (w : World) :
  exists t, after (PrintFileVar pState h fd w) = set_fds t w.
Proof.
  destruct (PrintFileVar_cases pState h fd w) as [ | | e l1 l2 _ _ _ _]; cbn [after];
    solve [exists (fds w); now rewrite set_fds_same | apply render_file_frame].
Qed.

(** ** One turn of the loop *)

Lemma VAR_OpenPrintSession_emitted (sigval : Z) (l : Locals) (w : World) :
  emitted (VAR_OpenPrintSession sigval l w) = [EvOpenPrintSession sigval].
Proof.
  unfold VAR_OpenPrintSession. destruct (sessions w sigval) as [[h fd]|]; reflexivity.
Qed.

Lemma VAR_OpenPrintSession_frame (sigval : Z) (l : Locals) (w : World) :
  exists t, after (VAR_OpenPrintSession sigval l w) = set_fds t w.
Proof.
  unfold VAR_OpenPrintSession. destruct (sessions w sigval) as [[h fd]|].
  - eexists. reflexivity.
  - exists (fds w). cbn. now rewrite set_fds_same.
Qed.

Lemma loop_body_print (sigval : Z) (l : Locals) (w : World) :
  let acquired := VAR_OpenPrintSession sigval l w in
  let dispatched :=
    PrintFileVar AddrOfState (l_hVar (value acquired)) (l_fd (value acquired))
                 (after acquired) in
  loop_body SIG_VAR_PRINT sigval l w =
    Out (value acquired)
        (set_fds (drop_fd (l_fd (value acquired)) (fds (after dispatched)))
                 (after dispatched))
        (EvWaitSignal SIG_VAR_PRINT sigval :: EvOpenPrintSession sigval ::
         emitted dispatched ++ [EvClosePrintSession sigval (l_fd (value acquired))]).
Proof.
  intros acquired dispatched. unfold loop_body. rewrite Z.eqb_refl.
  unfold bind, emit, ret, VAR_ClosePrintSession. cbn [value after emitted].
  fold acquired. fold dispatched.
  rewrite (VAR_OpenPrintSession_emitted sigval l w : emitted acquired = _).
  reflexivity.
Qed.

Lemma loop_body_other (sig sigval : Z) (l : Locals) (w : World) :
  sig <> SIG_VAR_PRINT ->
  loop_body sig sigval l w = Out l w [EvWaitSignal sig sigval].
Proof.
  intro H. unfold loop_body. apply Z.eqb_neq in H. rewrite H. reflexivity.
Qed.

Lemma loop_body_releases (sig sigval : Z) (l : Locals) (w : World) :
  count is_release (emitted (loop_body sig sigval l w)) =
  if sig =? SIG_VAR_PRINT then 1%nat else 0%nat.
Proof.
  destruct (sig =? SIG_VAR_PRINT) eqn:Hs.
  - apply Z.eqb_eq in Hs. subst sig. rewrite loop_body_print. cbn [emitted].
    change (EvWaitSignal SIG_VAR_PRINT sigval :: EvOpenPrintSession sigval :: ?t)
      with ([EvWaitSignal SIG_VAR_PRINT sigval; EvOpenPrintSession sigval] ++ t).
    rewrite !count_app.
    destruct (dispatch_not_release _
      (PrintFileVar_dispatch_events AddrOfState
         (l_hVar (value (VAR_OpenPrintSession sigval l w)))
         (l_fd (value (VAR_OpenPrintSession sigval l w)))
         (after (VAR_OpenPrintSession sigval l w)))) as [-> _].
    reflexivity.
  - apply Z.eqb_neq in Hs. now rewrite loop_body_other.
Qed.

(** The loop only ever stops in the termination handler. *)
Lemma dispatch_loop_cons (sig sigval : Z) (rest : list stimulus) (l : Locals) (w : World) :
  let turn := loop_body sig sigval l w in
  let later := dispatch_loop rest (value turn) (after turn) in
  dispatch_loop (Signal sig sigval :: rest) l w =
    Out (value later) (after later) (emitted turn ++ emitted later).
Proof. reflexivity. Qed.

Lemma dispatch_loop_releases (inputs : list stimulus) :
  forall l w,
    count is_release (emitted (dispatch_loop inputs l w)) = print_notifications inputs.
Proof.
  induction inputs as [|[sig sigval|signum] rest IH]; intros l w.
  - reflexivity.
  - rewrite dispatch_loop_cons. cbn [emitted print_notifications].
    rewrite count_app, loop_body_releases, IH.
    now destruct (sig =? SIG_VAR_PRINT).
  - reflexivity.
Qed.

(** ** The claims about the dispatch step and the loop *)

(** C1.  In every turn of the loop woken by the print signal, the events
    are: the wait, the acquisition of the session, the events of the
    dispatch step, then the release of the session.  The dispatch step
    itself never releases a session, so the turn releases exactly once,
    after the dispatch step, whatever [PrintFileVar] did (rendered, failed
    to open the file, found no node, or rejected its arguments).  Summed
    over a run of the loop, there are as many releases as print
    notifications received. *)
Theorem C1_session_released_exactly_once
    (sigval : Z) (l : Locals) (w : World) (inputs : list stimulus) :
  let acquired := VAR_OpenPrintSession sigval l w in
  let dispatched :=
    PrintFileVar AddrOfState (l_hVar (value acquired)) (l_fd (value acquired))
                 (after acquired) in
  let turn := loop_body SIG_VAR_PRINT sigval l w in
  emitted turn =
    EvWaitSignal SIG_VAR_PRINT sigval :: EvOpenPrintSession sigval ::
    emitted dispatched ++ [EvClosePrintSession sigval (l_fd (value acquired))]
  /\ count is_release (emitted dispatched) = 0%nat
  /\ count is_release (emitted turn) = 1%nat
  /\ count is_release (emitted (dispatch_loop inputs l w)) = print_notifications inputs.
Proof.
  intros acquired dispatched turn. repeat split.
  - unfold turn. now rewrite loop_body_print.
  - apply dispatch_not_release, PrintFileVar_dispatch_events.
  - unfold turn. rewrite loop_body_releases. now rewrite Z.eqb_refl.
  - apply dispatch_loop_releases.
Qed.

Lemma VAR_OpenPrintSession_some (sigval : Z) (l : Locals) (w : World) (h : VAR_HANDLE) (fd : Z) :
  sessions w sigval = Some (h, fd) ->
  VAR_OpenPrintSession sigval l w =
    Out {| l_hVar := h; l_fd := fd |} (set_fds ((fd, None) :: fds w) w)
        [EvOpenPrintSession sigval].
Proof. intro H. unfold VAR_OpenPrintSession. now rewrite H. Qed.

(** A turn of the loop for a session that the server opens on [(h, fd)],
    in terms of the dispatch step it runs. *)
Lemma loop_body_session (sigval : Z) (l : Locals) (w : World) (h : VAR_HANDLE) (fd : Z) :
  sessions w sigval = Some (h, fd) ->
  let dispatched := PrintFileVar AddrOfState h fd (set_fds ((fd, None) :: fds w) w) in
  loop_body SIG_VAR_PRINT sigval l w =
    Out {| l_hVar := h; l_fd := fd |}
        (set_fds (drop_fd fd (fds (after dispatched))) (after dispatched))
        (EvWaitSignal SIG_VAR_PRINT sigval :: EvOpenPrintSession sigval ::
         emitted dispatched ++ [EvClosePrintSession sigval fd]).
Proof.
  intros H dispatched. rewrite loop_body_print.
  rewrite (VAR_OpenPrintSession_some sigval l w h fd H). reflexivity.
Qed.

Lemma count_misses (p : event -> bool) (l : list FileVar) :
  (forall e b, p (EvTest e b) = false) -> count p (misses l) = 0%nat.
Proof.
  intro H. apply count_none. intros ev Hin.
  apply misses_tests_only in Hin. destruct Hin as [e [_ ->]]. apply H.
Qed.

(** C4.  A print for a valid handle that no node of the registry carries:
    [PrintFileVar] walks the whole list, returns ENOENT and leaves the
    world as it was; the turn of the loop opens no file, delivers no byte
    to any channel, releases the session once, as its last action, and
    the loop is back waiting for the next notification, which it goes on
    to process. *)
Theorem C4_unregistered_handle_reports_ENOENT
    (h : VAR_HANDLE) (fd sigval : Z) (l : Locals) (w : World) (rest : list stimulus) :
  h <> VAR_INVALID ->
  (forall e, In e (registry w) -> hVar e <> h) ->
  sessions w sigval = Some (h, fd) ->
  let dispatched := PrintFileVar AddrOfState h fd w in
  let turn := loop_body SIG_VAR_PRINT sigval l w in
  value dispatched = ENOENT
  /\ after dispatched = w
  /\ emitted dispatched = misses (registry w)
  /\ emitted turn =
       EvWaitSignal SIG_VAR_PRINT sigval :: EvOpenPrintSession sigval ::
       misses (registry w) ++ [EvClosePrintSession sigval fd]
  /\ count is_open (emitted turn) = 0%nat
  /\ count is_render (emitted turn) = 0%nat
  /\ (forall out, delivered_to out (emitted turn) = [])
  /\ count is_release (emitted turn) = 1%nat
  /\ value (dispatch_loop [Signal SIG_VAR_PRINT sigval] l w)
       = Waiting {| l_hVar := h; l_fd := fd |}
  /\ emitted (dispatch_loop (Signal SIG_VAR_PRINT sigval :: rest) l w)
       = emitted turn ++ emitted (dispatch_loop rest (value turn) (after turn)).
Proof.
  intros Hv Hno Hs dispatched turn.
  pose proof (lookup_unregistered w h Hno) as Hl.
  assert (Hd : dispatched = Out ENOENT w (misses (registry w)))
    by (apply PrintFileVar_lookup_none; assumption).
  assert (Ht : emitted turn =
               EvWaitSignal SIG_VAR_PRINT sigval :: EvOpenPrintSession sigval ::
               misses (registry w) ++ [EvClosePrintSession sigval fd]).
  { unfold turn. rewrite (loop_body_session sigval l w h fd Hs). cbn [emitted].
    rewrite PrintFileVar_lookup_none; [reflexivity | exact Hv |].
    apply lookup_unregistered. exact Hno. }
  rewrite Hd. cbn [value after emitted].
  repeat split; try exact Ht.
  - rewrite Ht.
    change (?a :: ?b :: ?t ++ ?u) with ([a; b] ++ t ++ u).
    rewrite !count_app, count_misses by reflexivity. reflexivity.
  - rewrite Ht.
    change (?a :: ?b :: ?t ++ ?u) with ([a; b] ++ t ++ u).
    rewrite !count_app, count_misses by reflexivity. reflexivity.
  - intro out. rewrite Ht.
    change (?a :: ?b :: ?t ++ ?u) with ([a; b] ++ t ++ u).
    rewrite !delivered_to_app, delivered_to_misses. reflexivity.
  - unfold turn. rewrite loop_body_releases. now rewrite Z.eqb_refl.
  - rewrite dispatch_loop_cons. cbn [value dispatch_loop ret].
    now rewrite (loop_body_session sigval l w h fd Hs).
Qed.

(** C5.  A print for a handle that the registry binds to a file which
    cannot be opened: [PrintFileVar] tries the [open], renders nothing and
    still returns EOK; the turn of the loop delivers no byte to any
    channel, releases the session once, as its last action, and the loop
    is back waiting for the next notification. *)
Theorem C5_unopenable_file_renders_nothing
    (h : VAR_HANDLE) (fd sigval : Z) (l : Locals) (w : World) (e : FileVar)
    (rest : list stimulus) :
  lookup w h = Some e ->
  file_at w (pFilename e) = None ->
  sessions w sigval = Some (h, fd) ->
  let dispatched := PrintFileVar AddrOfState h fd w in
  let turn := loop_body SIG_VAR_PRINT sigval l w in
  value dispatched = EOK
  /\ after dispatched = w
  /\ count is_render (emitted dispatched) = 0%nat
  /\ count is_render (emitted turn) = 0%nat
  /\ (forall out, delivered_to out (emitted turn) = [])
  /\ count is_release (emitted turn) = 1%nat
  /\ last (emitted turn) EvUsage = EvClosePrintSession sigval fd
  /\ value (dispatch_loop [Signal SIG_VAR_PRINT sigval] l w)
       = Waiting {| l_hVar := h; l_fd := fd |}
  /\ emitted (dispatch_loop (Signal SIG_VAR_PRINT sigval :: rest) l w)
       = emitted turn ++ emitted (dispatch_loop rest (value turn) (after turn)).
Proof.
  intros Hl Hfile Hs dispatched turn.
  destruct (PrintFileVar_lookup_some h fd w e Hl) as [_ [_ [l1 [l2 [_ [_ Hd]]]]]].
  rewrite (render_file_unreadable e fd w Hfile) in Hd.
  set (w1 := set_fds ((fd, None) :: fds w) w).
  assert (Hl1 : lookup w1 h = Some e) by exact Hl.
  assert (Hfile1 : file_at w1 (pFilename e) = None)
    by (unfold w1; now rewrite file_at_set_fds).
  destruct (PrintFileVar_lookup_some h fd w1 e Hl1) as [_ [_ [k1 [k2 [_ [_ Hd1]]]]]].
  rewrite (render_file_unreadable e fd w1 Hfile1) in Hd1.
  assert (Ht : emitted turn =
               [EvWaitSignal SIG_VAR_PRINT sigval; EvOpenPrintSession sigval] ++
               misses k1 ++
               [EvTest e true; EvOpen (pFilename e) (-1)] ++
               [EvClosePrintSession sigval fd]).
  { unfold turn. rewrite (loop_body_session sigval l w h fd Hs). cbn [emitted].
    fold w1. rewrite Hd1. cbn [emitted app]. now rewrite <- app_assoc. }
  unfold dispatched. rewrite Hd. cbn [value after emitted].
  repeat split.
  - change (EvTest e true :: ?t) with ([EvTest e true] ++ t).
    rewrite !count_app, count_misses by reflexivity. reflexivity.
  - rewrite Ht, !count_app, count_misses by reflexivity. reflexivity.
  - intro out. rewrite Ht, !delivered_to_app, delivered_to_misses. reflexivity.
  - unfold turn. rewrite loop_body_releases. now rewrite Z.eqb_refl.
  - rewrite Ht, !app_assoc. apply last_last.
  - rewrite dispatch_loop_cons. cbn [value dispatch_loop ret].
    now rewrite (loop_body_session sigval l w h fd Hs).
Qed.

(** C9.  Called with a null state pointer or with the invalid handle,
    [PrintFileVar] returns EINVAL at once: no node of the registry is
    tested, no file is opened, nothing is written to any channel; in fact
    no event is emitted and the world is untouched. *)
Theorem C9_invalid_arguments_rejected
    (pState : StatePtr) (h : VAR_HANDLE) (fd : Z) (w : World) :
  pState = NullPtr \/ h = VAR_INVALID ->
  let dispatched := PrintFileVar pState h fd w in
  value dispatched = EINVAL
  /\ count is_test (emitted dispatched) = 0%nat
  /\ count is_open (emitted dispatched) = 0%nat
  /\ count is_render (emitted dispatched) = 0%nat
  /\ (forall out, delivered_to out (emitted dispatched) = [])
  /\ emitted dispatched = []
  /\ after dispatched = w.
Proof.
  intros H dispatched. unfold dispatched.
  rewrite (PrintFileVar_invalid pState h fd w H). now repeat split.
Qed.

(** ** Registration *)

Lemma SetupFileVar_effect (pNode : JNode) (w : World) :
  let eff := setup_effect (namespace w) pNode (heap w) in
  SetupFileVar pNode AddrOfState w =
    Out (match fst eff with Some _ => EOK | None => EINVAL end)
        (set_registry (node_list (fst eff) ++ registry w) (set_heap (snd eff) w))
        (setup_events pNode (fst eff)).
Proof.
  destruct w as [ns ss fs rd t hp sv [hs vb fn l]].
  unfold SetupFileVar, setup_effect, setup_events.
  destruct (str_of (JSON_Find pNode "var")) as [varname|];
    [destruct (str_of (JSON_Find pNode "file")) as [filename|]|]; try reflexivity.
  destruct hp as [|[|] [|[|] hp2]]; reflexivity.
Qed.

Lemma registration_pass_cons (pNode : JNode) (rest : list JNode) (w : World) :
  let first := SetupFileVar pNode AddrOfState w in
  let later := registration_pass rest (after first) in
  registration_pass (pNode :: rest) w =
    Out tt (after later) (emitted first ++ emitted later).
Proof.
  cbn zeta. unfold registration_pass, JSON_Iterate. cbn [JSON_IterateNodes].
  unfold bind. cbn [value after emitted].
  now destruct (value (JSON_IterateNodes rest SetupFileVar AddrOfState _)).
Qed.

Lemma registration_pass_effect (cfg : list JNode) :
  forall w,
    let eff := pass_effect (namespace w) cfg (heap w) in
    after (registration_pass cfg w) =
      set_registry (fst eff ++ registry w) (set_heap (snd eff) w).
Proof.
  induction cfg as [|pNode rest IH]; intro w.
  - cbn. now destruct w as [ns ss fs rd t hp sv [hs vb fn l]].
  - rewrite registration_pass_cons. cbn [after]. rewrite IH.
    rewrite (SetupFileVar_effect pNode w). cbn [after pass_effect].
    destruct (setup_effect (namespace w) pNode (heap w)) as [oe hp1].
    cbn [fst snd]. cbn [namespace heap set_registry set_state set_heap registry state pFileVars].
    destruct (pass_effect (namespace w) rest hp1) as [added hp2].
    cbn [fst snd]. now rewrite <- app_assoc.
Qed.

(** The pass goes through the records one after the other: a pass over
    [a ++ b] is a pass over [a] followed by a pass over [b]. *)
Lemma registration_pass_app (a b : list JNode) :
  forall w,
    let first := registration_pass a w in
    let later := registration_pass b (after first) in
    registration_pass (a ++ b) w =
      Out tt (after later) (emitted first ++ emitted later).
Proof.
  induction a as [|pNode a' IH]; intro w.
  - cbn zeta. cbn [app]. change (registration_pass [] w) with (Out tt w []).
    cbn [after emitted app].
    now destruct (registration_pass b w) as [[] ? ?].
  - cbn zeta. cbn [app]. rewrite !registration_pass_cons. cbn [after emitted].
    rewrite IH. cbn [after emitted]. now rewrite app_assoc.
Qed.

(** Every node the pass links in carries what the namespace answered for
    the name of one of the records. *)
Lemma pass_effect_handles (ns : string -> VAR_HANDLE) (cfg : list JNode) :
  forall hp e,
    In e (fst (pass_effect ns cfg hp)) ->
    exists pNode varname,
      In pNode cfg /\ str_of (JSON_Find pNode "var") = Some varname /\
      hVar e = ns varname.
Proof.
  induction cfg as [|pNode rest IH]; intros hp e Hin; [destruct Hin|].
  cbn [pass_effect] in Hin.
  destruct (setup_effect ns pNode hp) as [oe hp1] eqn:Heff.
  destruct (pass_effect ns rest hp1) as [added hp2] eqn:Hrest.
  cbn [fst] in Hin. apply in_app_or in Hin. destruct Hin as [Hin|Hin].
  - destruct (IH hp1 e) as [q [n [Hq [Hn He]]]]; [now rewrite Hrest|].
    exists q, n. repeat split; [now right | exact Hn | exact He].
  - destruct oe as [e'|]; [|destruct Hin].
    destruct Hin as [<-|[]].
    unfold setup_effect in Heff.
    destruct (str_of (JSON_Find pNode "var")) as [varname|] eqn:Hvar; [|discriminate].
    destruct (str_of (JSON_Find pNode "file")) as [filename|]; [|discriminate].
    destruct (take_alloc hp) as [[|] hp']; [|discriminate].
    destruct (take_alloc hp') as [ok2 hp'']. injection Heff as <- _.
    exists pNode, varname. repeat split; [now left | exact Hvar].
Qed.

(** ** Lookup in a list of nodes *)

Lemma lookup_in_app_miss (a b : list FileVar) (h : VAR_HANDLE) :
  (forall e, In e a -> hVar e <> h) ->
  lookup_in (a ++ b) h = lookup_in b h.
Proof.
  intro Hno. unfold lookup_in. destruct (h =? VAR_INVALID); [reflexivity|].
  induction a as [|e a' IH]; [reflexivity|].
  cbn [app find]. destruct (hVar e =? h) eqn:He.
  - apply Z.eqb_eq in He. exfalso. apply (Hno e); [now left | exact He].
  - apply IH. intros e' Hin. apply Hno. now right.
Qed.

Lemma lookup_in_head (e : FileVar) (l : list FileVar) :
  hVar e <> VAR_INVALID -> lookup_in (e :: l) (hVar e) = Some e.
Proof.
  intro Hv. unfold lookup_in. apply Z.eqb_neq in Hv. rewrite Hv.
  cbn [find]. now rewrite Z.eqb_refl.
Qed.

Lemma lookup_in_valid (l : list FileVar) (h : VAR_HANDLE) (e : FileVar) :
  lookup_in l h = Some e -> h <> VAR_INVALID /\ hVar e = h /\ In e l.
Proof.
  unfold lookup_in. destruct (h =? VAR_INVALID) eqn:Hv; [discriminate|].
  intro Hf. apply find_some in Hf. destruct Hf as [Hin He].
  apply Z.eqb_neq in Hv. apply Z.eqb_eq in He. now repeat split.
Qed.

(** A node carrying the invalid handle is transparent for [lookup]. *)
Lemma lookup_in_skip_invalid (a b : list FileVar) (e : FileVar) (h : VAR_HANDLE) :
  hVar e = VAR_INVALID ->
  lookup_in (a ++ e :: b) h = lookup_in (a ++ b) h.
Proof.
  intro He. unfold lookup_in. destruct (h =? VAR_INVALID) eqn:Hv; [reflexivity|].
  induction a as [|x a' IH].
  - cbn [app find]. rewrite He, Z.eqb_sym, Hv. reflexivity.
  - cbn [app find]. now rewrite IH.
Qed.

Lemma lookup_in_cons_invalid (e : FileVar) (l : list FileVar) (h : VAR_HANDLE) :
  hVar e = VAR_INVALID -> lookup_in (e :: l) h = lookup_in l h.
Proof. exact (lookup_in_skip_invalid [] l e h). Qed.

Lemma count_zero_in (p : event -> bool) (l : list event) (ev : event) :
  count p l = 0%nat -> In ev l -> p ev = false.
Proof.
  unfold count. intros Hc Hin. destruct (p ev) eqn:Hp; [|reflexivity].
  assert (Hf : In ev (filter p l)) by (apply filter_In; now split).
  destruct (filter p l); [destruct Hf | discriminate].
Qed.

(** The only node a dispatch step ever matches is the one [lookup]
    returns. *)
Lemma PrintFileVar_match (pState : StatePtr) (h : VAR_HANDLE) (fd : Z) (w : World)
    (e : FileVar) :
  In (EvTest e true) (emitted (PrintFileVar pState h fd w)) ->
  lookup w h = Some e.
Proof.
  destruct (PrintFileVar_cases pState h fd w) as [ | | e0 l1 l2 _ Hl _ _];
    cbn [emitted]; intro Hin.
  - destruct Hin.
  - apply misses_tests_only in Hin. destruct Hin as [x [_ Hx]]. discriminate.
  - apply in_app_or in Hin. destruct Hin as [Hin|[Hin|Hin]].
    + apply misses_tests_only in Hin. destruct Hin as [x [_ Hx]]. discriminate.
    + now injection Hin as <-.
    + destruct (render_file_events e0 fd w) as [_ [_ Hc]].
      pose proof (count_zero_in _ _ _ Hc Hin). discriminate.
Qed.

(** A node tagged with the invalid handle is never returned by [lookup]
    and never matched by a dispatch step, whatever the request. *)
Lemma invalid_node_never_matched (e : FileVar) :
  hVar e = VAR_INVALID ->
  forall pState h fd w,
    lookup w h <> Some e /\
    ~ In (EvTest e true) (emitted (PrintFileVar pState h fd w)).
Proof.
  intros He pState h fd w.
  assert (Hl : lookup w h <> Some e).
  { intro Hl. apply lookup_in_valid in Hl. destruct Hl as [Hv [Hh _]]. congruence. }
  split; [exact Hl|]. intro Hin. apply Hl. exact (PrintFileVar_match _ _ _ _ _ Hin).
Qed.

(** ** The registry is written at startup only *)

Lemma loop_body_frame (sig sigval : Z) (l : Locals) (w : World) :
  exists t, after (loop_body sig sigval l w) = set_fds t w.
Proof.
  destruct (Z.eq_dec sig SIG_VAR_PRINT) as [->|Hs].
  - rewrite loop_body_print. cbn [after].
    destruct (VAR_OpenPrintSession_frame sigval l w) as [t1 ->].
    destruct (PrintFileVar_frame AddrOfState
                (l_hVar (value (VAR_OpenPrintSession sigval l w)))
                (l_fd (value (VAR_OpenPrintSession sigval l w)))
                (set_fds t1 w)) as [t2 ->].
    eexists. reflexivity.
  - rewrite loop_body_other by exact Hs. exists (fds w). cbn. now rewrite set_fds_same.
Qed.

Lemma dispatch_loop_frame (inputs : list stimulus) :
  forall l w, exists t, after (dispatch_loop inputs l w) = set_fds t w.
Proof.
  induction inputs as [|[sig sigval|signum] rest IH]; intros l w.
  - exists (fds w). cbn. now rewrite set_fds_same.
  - rewrite dispatch_loop_cons. cbn [after].
    destruct (loop_body_frame sig sigval l w) as [t1 ->].
    destruct (IH (value (loop_body sig sigval l w)) (set_fds t1 w)) as [t2 ->].
    eexists. reflexivity.
  - exists (fds w). cbn. now rewrite set_fds_same.
Qed.

(** The options only ever write the [verbose] flag and the file name of
    the state, and consume heap. *)
Lemma ProcessOptions_loop_frame (items : list getopt_item) (argV0 : option string) :
  forall w, exists v f hp,
    after (ProcessOptions_loop items argV0 w) =
    set_heap hp (set_pFileName f (set_verbose v w)).
Proof.
  induction items as [|c rest IH]; intro w.
  - exists (verbose (state w)), (pFileName (state w)), (heap w).
    now destruct w as [ns ss fs rd t hp sv [hs vb fn l]].
  - cbn [ProcessOptions_loop]. unfold bind. cbn [after].
    match goal with
    | |- context [ProcessOptions_loop rest argV0 ?w1] =>
        destruct (IH w1) as [v [f [hp ->]]]
    end.
    destruct c as [| |optarg|].
    + destruct argV0; eexists _, _, _; reflexivity.
    + eexists _, _, _; reflexivity.
    + unfold strdup, bind, alloc, update, ret.
      destruct (heap w) as [|b hp0]; eexists _, _, _; reflexivity.
    + eexists _, _, _; reflexivity.
Qed.

Lemma ProcessOptions_loop_usage_only (items : list getopt_item) (argV0 : option string) :
  forall w, forallb is_usage (emitted (ProcessOptions_loop items argV0 w)) = true.
Proof.
  induction items as [|c rest IH]; intro w; [reflexivity|].
  cbn [ProcessOptions_loop]. unfold bind. cbn [emitted].
  rewrite forallb_app, IH, andb_true_r.
  destruct c as [| |optarg|]; try reflexivity.
  - now destruct argV0.
  - unfold strdup, bind, alloc, update, ret. now destruct (heap w).
Qed.

Lemma after_options_frame (argV : list string) (items : list getopt_item) (w : World) :
  exists v f hp,
    after_options argV items w =
    set_heap hp (set_pFileName f (set_verbose v (set_state zero_state w))).
Proof.
  unfold after_options, ProcessOptions, bind, ret. cbn [after].
  apply ProcessOptions_loop_frame.
Qed.

(** [main], step by step. *)
Lemma main_unfold (argc : Z) (argV : list string) (items : list getopt_item)
    (cfg : option (list JNode)) (inputs : list stimulus) (l0 : Locals) (w : World) :
  main argc argV items cfg inputs l0 w =
    if argc <? 2 then
      Out (Exited 1) (set_state zero_state w)
          (emitted (usage (hd_error argV) (set_state zero_state w)))
    else
      let po := ProcessOptions items (Some argV) AddrOfState (set_state zero_state w) in
      match server w with
      | Some hs =>
          let pass := JSON_Iterate cfg SetupFileVar AddrOfState
                        (set_hVarServer (Some hs) (after_options argV items w)) in
          let loop := dispatch_loop inputs l0 (after pass) in
          Out (value loop) (after loop) (emitted po ++ emitted pass ++ emitted loop)
      | None => Out Returned (set_hVarServer None (after_options argV items w)) (emitted po)
      end.
Proof.
  unfold main, bind, update, VARSERVER_Open, get. cbn [value after emitted app].
  destruct (argc <? 2).
  - now destruct (hd_error argV).
  - fold (after_options argV items w).
    destruct (after_options_frame argV items w) as [v [f [hp Hpo]]].
    assert (Hserver : server (after_options argV items w) = server w)
      by now rewrite Hpo.
    rewrite Hserver. destruct (server w) as [hs|]; cbn zeta.
    + reflexivity.
    + now rewrite app_nil_r.
Qed.

(** The registry [main] ends up with, once the loop is running: the nodes
    of the registration pass, on top of the empty list. *)
Lemma main_registry (argc : Z) (argV : list string) (items : list getopt_item)
    (cfg : option (list JNode)) (inputs : list stimulus) (l0 : Locals) (w : World) :
  registry (after (main argc argV items cfg inputs l0 w)) =
    match cfg with
    | Some records =>
        if (argc <? 2) then []
        else match server w with
             | Some _ =>
                 fst (pass_effect (namespace w) records
                                  (heap (after_options argV items w)))
             | None => []
             end
    | None => []
    end.
Proof.
  rewrite main_unfold.
  destruct (after_options_frame argV items w) as [v [f [hp Hpo]]].
  destruct (argc <? 2); [now destruct cfg|].
  destruct (server w) as [hs|]; cbn zeta; cbn [after].
  - match goal with
    | |- context [dispatch_loop inputs l0 ?w1] =>
        destruct (dispatch_loop_frame inputs l0 w1) as [t ->]
    end.
    destruct cfg as [records|]; [|now rewrite Hpo].
    change (JSON_Iterate (Some records) SetupFileVar AddrOfState)
      with (registration_pass records).
    rewrite registration_pass_effect, Hpo. cbn. now rewrite app_nil_r.
  - rewrite Hpo. now destruct cfg.
Qed.

(** ** The claims about registration *)

(** C2, as the code has it.  [SetupFileVar] fails when it is given no
    state, when the record lacks its ["var"] or its ["file"] string, or
    when the node cannot be allocated: it then returns EINVAL, subscribes
    to nothing and leaves the registry as it was.  (A name that does not
    resolve is not among the failures: see [SetupFileVar_unresolved].) *)
Theorem C2_failed_registration_adds_nothing
    (pNode : JNode) (arg : StatePtr) (w : World) :
  arg = NullPtr \/
  str_of (JSON_Find pNode "var") = None \/
  str_of (JSON_Find pNode "file") = None \/
  value (malloc w) = false ->
  let r := SetupFileVar pNode arg w in
  value r = EINVAL /\ registry (after r) = registry w /\ emitted r = [].
Proof.
  intros H r. unfold r. destruct arg; [now repeat split|].
  rewrite SetupFileVar_effect.
  assert (Hnone : fst (setup_effect (namespace w) pNode (heap w)) = None).
  { unfold setup_effect. destruct H as [H|[H|[H|H]]].
    - discriminate.
    - now rewrite H.
    - rewrite H. now destruct (str_of (JSON_Find pNode "var")).
    - destruct (str_of (JSON_Find pNode "var")); [|reflexivity].
      destruct (str_of (JSON_Find pNode "file")); [|reflexivity].
      unfold malloc, alloc in H. unfold take_alloc.
      destruct (heap w) as [|[|] hp]; cbn in H; try discriminate. reflexivity. }
  cbn [value after emitted]. rewrite Hnone. now repeat split.
Qed.

(** A record whose name does not resolve, and which is otherwise fine, is
    registered like any other: EOK, a subscription for the invalid handle,
    and one more node, tagged with the invalid handle, which [lookup] does
    not see. *)
Lemma SetupFileVar_unresolved (pNode : JNode) (w : World) (varname filename : string) :
  str_of (JSON_Find pNode "var") = Some varname ->
  str_of (JSON_Find pNode "file") = Some filename ->
  value (malloc w) = true ->
  namespace w varname = VAR_INVALID ->
  let r := SetupFileVar pNode AddrOfState w in
  value r = EOK
  /\ emitted r = [EvFindByName varname; EvNotify VAR_INVALID]
  /\ (exists e, registry (after r) = e :: registry w /\ hVar e = VAR_INVALID)
  /\ (forall h, lookup (after r) h = lookup w h).
Proof.
  intros Hvar Hfile Hm Hns r. unfold r. rewrite SetupFileVar_effect.
  unfold setup_effect, setup_events. rewrite Hvar, Hfile.
  unfold malloc, alloc in Hm. unfold take_alloc.
  destruct (heap w) as [|[|] [|ok2 hp2]]; cbn in Hm; try discriminate;
    cbn; rewrite Hns; repeat split;
    try (eexists; split; reflexivity);
    intro h; unfold lookup; cbn; now apply lookup_in_cons_invalid.
Qed.

(** C3.  Every node of the registry that [main] builds either carries a
    valid handle, which the namespace gave for the name of one of the
    configuration records, or is tagged with the invalid handle, in which
    case no lookup ever returns it and no dispatch step ever matches it,
    in any world and for any request. *)
Theorem C3_registry_nodes_resolved_or_inert
    (argc : Z) (argV : list string) (items : list getopt_item)
    (cfg : option (list JNode)) (inputs : list stimulus) (l0 : Locals)
    (w : World) (e : FileVar) :
  In e (registry (after (main argc argV items cfg inputs l0 w))) ->
  (hVar e <> VAR_INVALID /\
   exists records pNode varname,
     cfg = Some records /\ In pNode records /\
     str_of (JSON_Find pNode "var") = Some varname /\
     namespace w varname = hVar e)
  \/
  (hVar e = VAR_INVALID /\
   forall pState h fd w',
     lookup w' h <> Some e /\
     ~ In (EvTest e true) (emitted (PrintFileVar pState h fd w'))).
Proof.
  rewrite main_registry. intro Hin.
  destruct (Z.eq_dec (hVar e) VAR_INVALID) as [Hinv|Hval].
  - right. split; [exact Hinv | now apply invalid_node_never_matched].
  - left. split; [exact Hval|].
    destruct cfg as [records|]; [|destruct Hin].
    destruct (argc <? 2); [destruct Hin|].
    destruct (server w); [|destruct Hin].
    destruct (pass_effect_handles _ _ _ _ Hin) as [pNode [varname [Hp [Hn He]]]].
    exists records, pNode, varname. now repeat split.
Qed.

(** The node linked in for a record whose two allocations succeed. *)
Lemma setup_effect_ok (ns : string -> VAR_HANDLE) (pNode : JNode)
    (varname filename : string) (w : World) :
  str_of (JSON_Find pNode "var") = Some varname ->
  str_of (JSON_Find pNode "file") = Some filename ->
  allocs_succeed 2 w = true ->
  fst (setup_effect ns pNode (heap w)) =
    Some {| hVar := ns varname; pFilename := Some filename |}.
Proof.
  intros Hvar Hfile Ha. unfold setup_effect. rewrite Hvar, Hfile.
  unfold allocs_succeed in Ha.
  destruct (heap w) as [|[|] [|[|] hp]]; cbn in Ha; try discriminate; reflexivity.
Qed.

(** Register a record, then any records that resolve to other handles:
    the lookup of its handle returns its node. *)
Lemma lookup_after_registration
    (pNode : JNode) (post : list JNode) (varname filename : string) (w : World) :
  str_of (JSON_Find pNode "var") = Some varname ->
  str_of (JSON_Find pNode "file") = Some filename ->
  allocs_succeed 2 w = true ->
  namespace w varname <> VAR_INVALID ->
  (forall q n, In q post -> str_of (JSON_Find q "var") = Some n ->
               namespace w n <> namespace w varname) ->
  value (SetupFileVar pNode AddrOfState w) = EOK /\
  lookup (after (registration_pass (pNode :: post) w)) (namespace w varname) =
    Some {| hVar := namespace w varname; pFilename := Some filename |}.
Proof.
  intros Hvar Hfile Ha Hval Hpost.
  pose proof (setup_effect_ok (namespace w) pNode varname filename w Hvar Hfile Ha) as Heff.
  split.
  - rewrite SetupFileVar_effect. cbn [value]. now rewrite Heff.
  - rewrite registration_pass_cons. cbn [after]. rewrite registration_pass_effect.
    rewrite SetupFileVar_effect. cbn [after]. rewrite Heff.
    unfold lookup.
    cbn [namespace heap set_registry set_state set_heap registry state pFileVars node_list].
    rewrite lookup_in_app_miss.
    + exact (lookup_in_head {| hVar := namespace w varname; pFilename := Some filename |}
                            _ Hval).
    + intros e Hin.
      destruct (pass_effect_handles _ _ _ _ Hin) as [q [n [Hq [Hn ->]]]].
      exact (Hpost q n Hq Hn).
Qed.

Lemma registration_pass_namespace (cfg : list JNode) (w : World) :
  namespace (after (registration_pass cfg w)) = namespace w.
Proof. now rewrite registration_pass_effect. Qed.

(** A readable file, opened on a positive descriptor, is rendered to the
    channel of the request and closed again. *)
Lemma PrintFileVar_renders (h : VAR_HANDLE) (fd : Z) (w : World) (e : FileVar)
    (bytes : list byte) :
  lookup w h = Some e ->
  file_at w (pFilename e) = Some bytes ->
  in_use 0 (fds w) = true ->
  let dispatched := PrintFileVar AddrOfState h fd w in
  value dispatched = EOK
  /\ delivered_to fd (emitted dispatched) = render w bytes
  /\ after dispatched = w.
Proof.
  intros Hl Hfile H0 dispatched. unfold dispatched.
  destruct (PrintFileVar_lookup_some h fd w e Hl) as [_ [_ [l1 [l2 [_ [_ ->]]]]]].
  rewrite (render_file_readable e fd w bytes Hfile (lowest_unused_pos _ H0)).
  cbn [value after emitted]. repeat split.
  rewrite delivered_to_app, delivered_to_misses. cbn.
  rewrite Z.eqb_refl. now rewrite app_nil_r.
Qed.

(** C6, as the code has it.  A record whose two allocations succeed and
    whose name resolves is registered (EOK); provided no record
    registered after it resolves to the same handle, looking up the
    handle of its name returns the node with exactly its file path; and
    in any later world with that registry in which the file is readable
    and descriptor 0 is in use, a print for the handle returns EOK and
    delivers to the channel of the request exactly the rendering of the
    file's bytes. *)
Theorem C6_lookup_returns_registered_file
    (pNode : JNode) (post : list JNode) (varname filename : string) (w : World) :
  str_of (JSON_Find pNode "var") = Some varname ->
  str_of (JSON_Find pNode "file") = Some filename ->
  allocs_succeed 2 w = true ->
  namespace w varname <> VAR_INVALID ->
  (forall q n, In q post -> str_of (JSON_Find q "var") = Some n ->
               namespace w n <> namespace w varname) ->
  let w' := after (registration_pass (pNode :: post) w) in
  value (SetupFileVar pNode AddrOfState w) = EOK
  /\ lookup w' (namespace w varname) =
       Some {| hVar := namespace w varname; pFilename := Some filename |}
  /\ forall later fd bytes,
       registry later = registry w' ->
       files later filename = Some bytes ->
       in_use 0 (fds later) = true ->
       let dispatched := PrintFileVar AddrOfState (namespace w varname) fd later in
       value dispatched = EOK
       /\ delivered_to fd (emitted dispatched) = render later bytes
       /\ after dispatched = later.
Proof.
  intros Hvar Hfile Ha Hval Hpost w'.
  destruct (lookup_after_registration pNode post varname filename w
              Hvar Hfile Ha Hval Hpost) as [Hok Hl].
  split; [exact Hok|]. split; [exact Hl|].
  intros later fd bytes Hreg Hbytes H0.
  apply (PrintFileVar_renders (namespace w varname) fd later
           {| hVar := namespace w varname; pFilename := Some filename |} bytes);
    [|exact Hbytes | exact H0].
  unfold lookup. rewrite Hreg. exact Hl.
Qed.

(** A node that has been linked in stays in the list for the rest of the
    pass. *)
Lemma registered_node_stays
    (pNode : JNode) (rest : list JNode) (varname filename : string) (w : World) :
  str_of (JSON_Find pNode "var") = Some varname ->
  str_of (JSON_Find pNode "file") = Some filename ->
  allocs_succeed 2 w = true ->
  In {| hVar := namespace w varname; pFilename := Some filename |}
     (registry (after (registration_pass (pNode :: rest) w))).
Proof.
  intros Hvar Hfile Ha.
  rewrite registration_pass_cons. cbn [after]. rewrite registration_pass_effect.
  rewrite SetupFileVar_effect. cbn [after].
  rewrite (setup_effect_ok (namespace w) pNode varname filename w Hvar Hfile Ha).
  cbn [namespace heap set_registry set_state set_heap registry state pFileVars node_list].
  apply in_or_app. right. now left.
Qed.

Lemma render_file_opens (e : FileVar) (fd : Z) (w : World) :
  exists ret rest,
    emitted (render_file e fd w) = EvOpen (pFilename e) ret :: rest /\
    count is_open rest = 0%nat.
Proof.
  destruct (render_file_cases e fd w); eexists _, _; split; reflexivity.
Qed.

(** What a dispatch step does for a handle that [lookup] finds: EOK, the
    node found is the one matched, and its file is the one, and the only
    one, that [open] is called on. *)
Lemma PrintFileVar_serves (h : VAR_HANDLE) (fd : Z) (w : World) (e : FileVar) :
  lookup w h = Some e ->
  let d := PrintFileVar AddrOfState h fd w in
  value d = EOK
  /\ In (EvTest e true) (emitted d)
  /\ (exists ret, In (EvOpen (pFilename e) ret) (emitted d))
  /\ (forall p ret, In (EvOpen p ret) (emitted d) -> p = pFilename e).
Proof.
  intros Hl d. unfold d.
  destruct (PrintFileVar_lookup_some h fd w e Hl) as [_ [_ [l1 [l2 [_ [_ ->]]]]]].
  destruct (render_file_opens e fd w) as [ret [rest [-> Hrest]]].
  cbn [value emitted]. repeat split.
  - apply in_or_app. right. now left.
  - exists ret. apply in_or_app. right. right. now left.
  - intros p r Hin. apply in_app_or in Hin. destruct Hin as [Hin|[Hin|[Hin|Hin]]].
    + apply misses_tests_only in Hin. destruct Hin as [x [_ Hx]]. discriminate.
    + discriminate.
    + now injection Hin as <- _.
    + pose proof (count_zero_in _ _ _ Hrest Hin). discriminate.
Qed.

(** C7.  The same name registered twice, with two different files, in the
    middle of any sequence of registrations and from any starting
    registry: as long as no record registered after the second one
    resolves to the same handle, the node of the second registration is
    the one a print for the handle is served from.  [PrintFileVar] returns
    EOK, the scan matches that node and no other, the file that is opened
    is the second file and never the first, and when it is readable (on a
    positive descriptor) what is delivered is its rendering.  The node of
    the first registration is still in the list, behind it. *)
Theorem C7_last_registration_wins
    (pre mid post : list JNode) (first second : JNode)
    (varname file1 file2 : string) (w : World) :
  str_of (JSON_Find first "var") = Some varname ->
  str_of (JSON_Find first "file") = Some file1 ->
  str_of (JSON_Find second "var") = Some varname ->
  str_of (JSON_Find second "file") = Some file2 ->
  file1 <> file2 ->
  namespace w varname <> VAR_INVALID ->
  allocs_succeed 2 (after (registration_pass pre w)) = true ->
  allocs_succeed 2 (after (registration_pass (pre ++ first :: mid) w)) = true ->
  (forall q n, In q post -> str_of (JSON_Find q "var") = Some n ->
               namespace w n <> namespace w varname) ->
  let w' := after (registration_pass (pre ++ first :: mid ++ second :: post) w) in
  let older := {| hVar := namespace w varname; pFilename := Some file1 |} in
  let winner := {| hVar := namespace w varname; pFilename := Some file2 |} in
  lookup w' (namespace w varname) = Some winner
  /\ winner <> older
  /\ In older (registry w')
  /\ (forall pState fd later e,
        registry later = registry w' ->
        In (EvTest e true)
           (emitted (PrintFileVar pState (namespace w varname) fd later)) ->
        e = winner)
  /\ forall fd later,
       registry later = registry w' ->
       let d := PrintFileVar AddrOfState (namespace w varname) fd later in
       value d = EOK
       /\ In (EvTest winner true) (emitted d)
       /\ ~ In (EvTest older true) (emitted d)
       /\ (exists ret, In (EvOpen (Some file2) ret) (emitted d))
       /\ (forall p ret, In (EvOpen p ret) (emitted d) -> p = Some file2)
       /\ (forall ret, ~ In (EvOpen (Some file1) ret) (emitted d))
       /\ (forall bytes,
             files later file2 = Some bytes ->
             in_use 0 (fds later) = true ->
             delivered_to fd (emitted d) = render later bytes).
Proof.
  intros Hv1 Hf1 Hv2 Hf2 Hdiff Hval Ha1 Ha2 Hpost w' older winner.
  assert (Hl : lookup w' (namespace w varname) = Some winner).
  { unfold w'. rewrite app_comm_cons, app_assoc.
    rewrite registration_pass_app. cbn [after].
    set (wA := after (registration_pass (pre ++ first :: mid) w)) in *.
    assert (Hns : namespace wA = namespace w) by apply registration_pass_namespace.
    destruct (lookup_after_registration second post varname file2 wA) as [_ H];
      try assumption; rewrite ?Hns; try assumption.
    unfold winner. rewrite <- Hns. exact H. }
  assert (Hne : winner <> older).
  { unfold winner, older. intro H. injection H as H. now apply Hdiff. }
  assert (Honly : forall pState fd later e,
            registry later = registry w' ->
            In (EvTest e true)
               (emitted (PrintFileVar pState (namespace w varname) fd later)) ->
            e = winner).
  { intros pState fd later e Hreg Hin.
    apply PrintFileVar_match in Hin. unfold lookup in Hin, Hl.
    rewrite Hreg, Hl in Hin. now injection Hin. }
  split; [exact Hl|]. split; [exact Hne|]. split.
  { unfold w'. rewrite registration_pass_app. cbn [after].
    set (wP := after (registration_pass pre w)) in *.
    assert (Hns : namespace wP = namespace w) by apply registration_pass_namespace.
    unfold older. rewrite <- Hns.
    now apply registered_node_stays. }
  split; [exact Honly|].
  intros fd later Hreg d.
  assert (Hlater : lookup later (namespace w varname) = Some winner)
    by (unfold lookup; rewrite Hreg; exact Hl).
  destruct (PrintFileVar_serves _ fd later winner Hlater) as [Hok [Hmatch [Hopen Hopens]]].
  fold d in Hok, Hmatch, Hopen, Hopens.
  split; [exact Hok|]. split; [exact Hmatch|]. split.
  { intro Hin. apply Hne. symmetry. exact (Honly AddrOfState fd later older Hreg Hin). }
  split; [exact Hopen|]. split; [exact Hopens|]. split.
  { intros ret Hin. apply Hopens in Hin. cbn in Hin. injection Hin as Hin.
    now apply Hdiff. }
  intros bytes Hbytes H0.
  exact (proj1 (proj2 (PrintFileVar_renders _ fd later winner bytes Hlater Hbytes H0))).
Qed.

(** ** Descriptors across a dispatch step *)

(** At most one node is rendered by a dispatch step. *)
Lemma PrintFileVar_renders_at_most_once
    (pState : StatePtr) (h : VAR_HANDLE) (fd : Z) (w : World) :
  (count is_render (emitted (PrintFileVar pState h fd w)) <= 1)%nat.
Proof.
  destruct (PrintFileVar_cases pState h fd w) as [ | | e l1 l2 _ _ _ _]; cbn [emitted].
  - cbn. lia.
  - rewrite count_misses by reflexivity. lia.
  - change (EvTest e true :: ?t) with ([EvTest e true] ++ t).
    rewrite !count_app, count_misses by reflexivity.
    destruct (render_file_events e fd w) as [_ [Hr _]].
    change (count is_render [EvTest e true]) with 0%nat. lia.
Qed.

(** As long as descriptor 0 is in use, a dispatch step closes the
    descriptor it opens: the descriptor table, and with it the whole
    world, is as before. *)
Lemma PrintFileVar_closes_what_it_opens
    (pState : StatePtr) (h : VAR_HANDLE) (fd : Z) (w : World) :
  in_use 0 (fds w) = true ->
  after (PrintFileVar pState h fd w) = w.
Proof.
  intro H0.
  destruct (PrintFileVar_cases pState h fd w) as [ | | e l1 l2 _ _ _ _]; cbn [after];
    try reflexivity.
  destruct (render_file_cases e fd w); try reflexivity. congruence.
Qed.

(** With descriptor 0 free, the template of the matched node is opened on
    descriptor 0 and left open, and nothing is rendered. *)
Lemma PrintFileVar_on_descriptor_zero
    (h : VAR_HANDLE) (fd : Z) (w : World) (e : FileVar) (bytes : list byte) :
  lookup w h = Some e ->
  file_at w (pFilename e) = Some bytes ->
  in_use 0 (fds w) = false ->
  let dispatched := PrintFileVar AddrOfState h fd w in
  value dispatched = EOK
  /\ after dispatched = set_fds ((0, pFilename e) :: fds w) w
  /\ count is_render (emitted dispatched) = 0%nat
  /\ count is_close (emitted dispatched) = 0%nat.
Proof.
  intros Hl Hfile H0 dispatched. unfold dispatched.
  destruct (PrintFileVar_lookup_some h fd w e Hl) as [_ [_ [l1 [l2 [_ [_ ->]]]]]].
  rewrite (render_file_descriptor_zero e fd w bytes Hfile H0).
  cbn [value after emitted].
  change (EvTest e true :: ?t) with ([EvTest e true] ++ t).
  rewrite !count_app, !count_misses by reflexivity. now repeat split.
Qed.

(** * Further properties of the program *)

(** ** The dispatch step *)

Lemma result_codes_distinct : EOK <> ENOENT /\ EOK <> EINVAL /\ ENOENT <> EINVAL.
Proof. unfold EOK, ENOENT, EINVAL. lia. Qed.

Lemma lookup_none_unregistered (w : World) (h : VAR_HANDLE) :
  h <> VAR_INVALID -> lookup w h = None ->
  forall e, In e (registry w) -> hVar e <> h.
Proof.
  intros Hv Hl e Hin. unfold lookup, lookup_in in Hl.
  apply Z.eqb_neq in Hv. rewrite Hv in Hl.
  apply Z.eqb_neq. exact (find_none _ _ Hl e Hin).
Qed.

(** X1.  The result of [PrintFileVar] says how the request was resolved
    and nothing else: EINVAL exactly for a null state or the invalid
    handle, ENOENT exactly for a valid handle that no node carries, EOK
    exactly for a valid handle that some node carries, whether or not its
    file could be opened or rendered. *)
Theorem X1_PrintFileVar_result
    (pState : StatePtr) (h : VAR_HANDLE) (fd : Z) (w : World) :
  let r := value (PrintFileVar pState h fd w) in
  (r = EINVAL <-> pState = NullPtr \/ h = VAR_INVALID)
  /\ (r = ENOENT <->
        pState = AddrOfState /\ h <> VAR_INVALID /\
        forall e, In e (registry w) -> hVar e <> h)
  /\ (r = EOK <->
        pState = AddrOfState /\ h <> VAR_INVALID /\
        exists e, In e (registry w) /\ hVar e = h).
Proof.
  destruct result_codes_distinct as [D1 [D2 D3]].
  destruct (PrintFileVar_cases pState h fd w) as [Hrej | Hp Hv Hl | e l1 l2 Hp Hl Hreg Hpre];
    cbn [value].
  - split; [|split]; split; intro H.
    + exact Hrej.
    + reflexivity.
    + congruence.
    + destruct H as [Hp [Hv _]]. destruct Hrej; congruence.
    + congruence.
    + destruct H as [Hp [Hv _]]. destruct Hrej; congruence.
  - pose proof (lookup_none_unregistered w h Hv Hl) as Hno.
    split; [|split]; split; intro H.
    + congruence.
    + destruct H; congruence.
    + now repeat split.
    + reflexivity.
    + congruence.
    + destruct H as [_ [_ [e [Hin He]]]]. now destruct (Hno e Hin).
  - apply lookup_in_valid in Hl. destruct Hl as [Hv [He Hin]].
    split; [|split]; split; intro H.
    + congruence.
    + destruct H; congruence.
    + congruence.
    + destruct H as [_ [_ Hno]]. now destruct (Hno e Hin).
    + repeat split; [exact Hp | exact Hv |]. now exists e.
    + reflexivity.
Qed.

Lemma tested_app (a b : list event) : tested (a ++ b) = tested a ++ tested b.
Proof. unfold tested. apply flat_map_app. Qed.

Lemma tested_misses (l : list FileVar) : tested (misses l) = l.
Proof. induction l as [|e l' IH]; [reflexivity|]. cbn. now f_equal. Qed.

Lemma tested_render_file (e : FileVar) (fd : Z) (w : World) :
  tested (emitted (render_file e fd w)) = [].
Proof. now destruct (render_file_cases e fd w). Qed.

Lemma tested_length (evs : list event) : List.length (tested evs) = count is_test evs.
Proof.
  unfold tested, count. induction evs as [|ev evs' IH]; [reflexivity|].
  destruct ev; cbn in *; now rewrite ?IH.
Qed.

(** X2.  The scan looks at the nodes from the head of the list up to the
    first one that carries the requested handle and at no node behind it:
    the nodes compared are exactly that prefix, whatever the rest of the
    list holds. *)
Theorem X2_scan_stops_at_first_match
    (l1 l2 : list FileVar) (e : FileVar) (h : VAR_HANDLE) (fd : Z) (w : World) :
  registry w = l1 ++ e :: l2 ->
  hVar e = h ->
  h <> VAR_INVALID ->
  (forall e', In e' l1 -> hVar e' <> h) ->
  let evs := emitted (PrintFileVar AddrOfState h fd w) in
  tested evs = l1 ++ [e]
  /\ count is_test evs = S (List.length l1)
  /\ In (EvTest e true) evs
  /\ forall e' b, In e' l1 -> In (EvTest e' b) evs -> b = false.
Proof.
  intros Hreg He Hv Hpre evs.
  assert (Hevs : evs = misses l1 ++ EvTest e true :: emitted (render_file e fd w)).
  { unfold evs, PrintFileVar. apply Z.eqb_neq in Hv. rewrite Hv. cbn [negb].
    unfold bind, get. cbn [value after emitted app]. rewrite Hreg.
    now rewrite scan_hit. }
  assert (Ht : tested evs = l1 ++ [e]).
  { rewrite Hevs, tested_app, tested_misses.
    change (EvTest e true :: ?t) with ([EvTest e true] ++ t).
    now rewrite tested_app, tested_render_file. }
  repeat split.
  - exact Ht.
  - rewrite <- tested_length, Ht, length_app. cbn. lia.
  - rewrite Hevs. apply in_or_app. right. now left.
  - intros e' b Hin Hev. rewrite Hevs in Hev.
    apply in_app_or in Hev. destruct Hev as [Hev|[Hev|Hev]].
    + apply misses_tests_only in Hev. destruct Hev as [x [_ Hx]]. congruence.
    + injection Hev as <- <-. now destruct (Hpre e Hin).
    + destruct (render_file_events e fd w) as [_ [_ Hc]].
      pose proof (count_zero_in _ _ _ Hc Hev). discriminate.
Qed.

(** X3.  The calls of one dispatch step add up: at most one [open], at
    most one rendering, only of a file that was opened, and exactly as
    many [close] as renderings. *)
Theorem X3_dispatch_call_accounting
    (pState : StatePtr) (h : VAR_HANDLE) (fd : Z) (w : World) :
  let evs := emitted (PrintFileVar pState h fd w) in
  (count is_open evs <= 1)%nat
  /\ (count is_render evs <= count is_open evs)%nat
  /\ count is_close evs = count is_render evs.
Proof.
  destruct (PrintFileVar_cases pState h fd w) as [ | | e l1 l2 _ _ _ _]; cbn [emitted].
  - cbn. lia.
  - rewrite !count_misses by reflexivity. lia.
  - change (EvTest e true :: ?t) with ([EvTest e true] ++ t).
    rewrite !count_app, !count_misses by reflexivity.
    destruct (render_file_cases e fd w); cbn; lia.
Qed.

Lemma cons_neq {A : Type} (x : A) (l : list A) : x :: l <> l.
Proof.
  intro H. apply (f_equal (@List.length A)) in H. cbn in H. lia.
Qed.

(** X4.  A dispatch step leaves the process exactly as it found it, with
    one exception: a request that matches a node whose file is readable,
    made while descriptor 0 is free.  Then, and only then, the world after
    the step differs from the world before. *)
Theorem X4_dispatch_changes_world_only_on_descriptor_zero
    (pState : StatePtr) (h : VAR_HANDLE) (fd : Z) (w : World) :
  after (PrintFileVar pState h fd w) <> w <->
  pState = AddrOfState /\
  exists e bytes,
    lookup w h = Some e /\ file_at w (pFilename e) = Some bytes /\
    in_use 0 (fds w) = false.
Proof.
  split.
  - destruct (PrintFileVar_cases pState h fd w) as [ | | e l1 l2 Hp Hl _ _];
      cbn [after]; intro Hne; try now destruct Hne.
    destruct (render_file_cases e fd w) as [ | | bytes Hfile H0];
      cbn [after] in Hne; try now destruct Hne.
    split; [exact Hp|]. now exists e, bytes.
  - intros [-> [e [bytes [Hl [Hfile H0]]]]].
    destruct (PrintFileVar_on_descriptor_zero h fd w e bytes Hl Hfile H0) as [_ [-> _]].
    intro H. apply (f_equal fds) in H. cbn in H. exact (cons_neq _ _ H).
Qed.

(** ** The loop and [main] *)

(** X5.  However many signals the loop handles, and whatever they are, it
    changes nothing of the process but the descriptor table: the global
    state, and with it the registry, is never written again, and nothing
    is allocated. *)
Theorem X5_loop_touches_descriptors_only
    (inputs : list stimulus) (l : Locals) (w : World) :
  let w' := after (dispatch_loop inputs l w) in
  w' = set_fds (fds w') w
  /\ state w' = state w
  /\ registry w' = registry w
  /\ heap w' = heap w.
Proof.
  destruct (dispatch_loop_frame inputs l w) as [t Ht].
  cbn zeta. rewrite Ht. now repeat split.
Qed.

(** X6.  Signals of the variable server other than the print signal are
    waited for and dropped: no session is opened or closed, nothing is
    dispatched, the locals and the whole process are as before. *)
Theorem X6_other_signals_are_ignored
    (inputs : list stimulus) (l : Locals) (w : World) :
  forallb is_other_signal inputs = true ->
  dispatch_loop inputs l w = Out (Waiting l) w (waits inputs).
Proof.
  induction inputs as [|[sig sigval|signum] rest IH]; intro H.
  - reflexivity.
  - cbn [forallb is_other_signal] in H. apply andb_true_iff in H. destruct H as [Hs Hrest].
    apply negb_true_iff, Z.eqb_neq in Hs.
    rewrite dispatch_loop_cons, (loop_body_other sig sigval l w Hs).
    cbn [value after emitted]. now rewrite (IH Hrest).
  - discriminate.
Qed.

Lemma loop_body_keeps_server_open (sig sigval : Z) (l : Locals) (w : World) :
  count is_server_close (emitted (loop_body sig sigval l w)) = 0%nat.
Proof.
  destruct (Z.eq_dec sig SIG_VAR_PRINT) as [->|Hs].
  - rewrite loop_body_print. cbn [emitted].
    change (?a :: ?b :: ?t ++ ?u) with ([a; b] ++ t ++ u).
    rewrite !count_app.
    rewrite (count_none is_server_close (emitted (PrintFileVar _ _ _ _))); [reflexivity|].
    intros ev Hin.
    pose proof (PrintFileVar_dispatch_events AddrOfState
                  (l_hVar (value (VAR_OpenPrintSession sigval l w)))
                  (l_fd (value (VAR_OpenPrintSession sigval l w)))
                  (after (VAR_OpenPrintSession sigval l w))) as Hd.
    rewrite forallb_forall in Hd. specialize (Hd ev Hin). now destruct ev.
  - now rewrite loop_body_other.
Qed.

(** X7.  When the process is told to terminate, the termination handler
    closes the connection to the variable server, exactly once in the
    life of the process, logs the abnormal termination and exits with
    status 1, whatever the signal number; what would have arrived after
    that is never looked at. *)
Theorem X7_termination_closes_server_and_exits
    (a b : list stimulus) (signum : Z) (l : Locals) (w : World) :
  existsb is_terminate a = false ->
  let before := dispatch_loop a l w in
  let r := dispatch_loop (a ++ Terminate signum :: b) l w in
  value r = Exited 1
  /\ after r = after before
  /\ emitted r =
       emitted before ++ [EvServerClose; EvSyslog "Abnormal termination of filevars"]
  /\ count is_server_close (emitted r) = 1%nat.
Proof.
  revert l w. induction a as [|[sig sigval|s] rest IH]; intros l w H.
  - cbn. now repeat split.
  - cbn [existsb is_terminate orb] in H. cbn [app]. cbn zeta.
    rewrite !dispatch_loop_cons. cbn [value after emitted].
    destruct (IH (value (loop_body sig sigval l w)) (after (loop_body sig sigval l w)) H)
      as [Hv [Ha [He Hc]]].
    repeat split.
    + exact Hv.
    + exact Ha.
    + rewrite He. now rewrite app_assoc.
    + rewrite count_app, Hc, loop_body_keeps_server_open. reflexivity.
  - discriminate.
Qed.

Lemma dispatch_loop_status (inputs : list stimulus) :
  forall l w,
    if existsb is_terminate inputs
    then value (dispatch_loop inputs l w) = Exited 1
    else exists l', value (dispatch_loop inputs l w) = Waiting l'.
Proof.
  induction inputs as [|[sig sigval|s] rest IH]; intros l w.
  - cbn. now exists l.
  - rewrite dispatch_loop_cons. cbn [value existsb is_terminate orb]. apply IH.
  - reflexivity.
Qed.

Lemma main_value (argc : Z) (argV : list string) (items : list getopt_item)
    (cfg : option (list JNode)) (inputs : list stimulus) (l0 : Locals) (w : World) :
  value (main argc argV items cfg inputs l0 w) =
    if argc <? 2 then Exited 1
    else match server w with
         | Some hs =>
             value (dispatch_loop inputs l0
                      (after (JSON_Iterate cfg SetupFileVar AddrOfState
                                (set_hVarServer (Some hs) (after_options argV items w)))))
         | None => Returned
         end.
Proof.
  rewrite main_unfold. destruct (argc <? 2); [reflexivity|].
  now destruct (server w).
Qed.

(** X8.  How [main] ends on a finite prefix of its input.  It exits, and
    then always with status 1, when it was given fewer than two arguments
    or when it is told to terminate while in the loop; it returns only
    when the variable server cannot be opened; in every other case it is
    blocked waiting for the next signal.  No input makes it exit with
    status 0.  (When [main] returns, the status of the process is not
    set by the program.) *)
Theorem X8_main_status
    (argc : Z) (argV : list string) (items : list getopt_item)
    (cfg : option (list JNode)) (inputs : list stimulus)
    (l0 : Locals) (w : World) :
  match value (main argc argV items cfg inputs l0 w) with
  | Exited code =>
      code = 1 /\
      (argc < 2 \/ (server w <> None /\ existsb is_terminate inputs = true))
  | Returned => 2 <= argc /\ server w = None
  | Waiting _ =>
      2 <= argc /\ server w <> None /\ existsb is_terminate inputs = false
  end.
Proof.
  rewrite main_value. destruct (argc <? 2) eqn:Hargc.
  - apply Z.ltb_lt in Hargc. split; [reflexivity | now left].
  - apply Z.ltb_ge in Hargc. destruct (server w) as [hs|]; [|now split].
    match goal with
    | |- context [dispatch_loop inputs l0 ?w1] =>
        pose proof (dispatch_loop_status inputs l0 w1) as Hs
    end.
    destruct (existsb is_terminate inputs).
    + rewrite Hs. split; [reflexivity|]. right. split; [discriminate | reflexivity].
    + destruct Hs as [l' ->]. repeat split; [exact Hargc | discriminate].
Qed.

Lemma usage_only_no_server_call (l : list event) :
  forallb is_usage l = true ->
  count is_server_call l = 0%nat /\ notified l = [].
Proof.
  induction l as [|ev l' IH]; [now split|].
  cbn [forallb]. intro H. apply andb_true_iff in H. destruct H as [Hev Hl].
  destruct (IH Hl) as [Hc Hn].
  destruct ev; try discriminate. now split.
Qed.

Lemma ProcessOptions_usage_only
    (items : list getopt_item) (argV : option (list string)) (pState : StatePtr)
    (w : World) :
  forallb is_usage (emitted (ProcessOptions items argV pState w)) = true.
Proof.
  unfold ProcessOptions. destruct pState; [reflexivity|].
  destruct argV as [args|]; [|reflexivity].
  unfold bind, ret. cbn [emitted]. rewrite app_nil_r.
  apply ProcessOptions_loop_usage_only.
Qed.

(** X9.  When [main] is given fewer than two arguments, or cannot open
    the variable server, nothing is registered and nothing is waited for,
    whatever the configuration and whatever signals are pending: the
    registry is empty, no call has been made to the variable server, and
    the registration has allocated nothing.  The heap is as it was with
    fewer than two arguments, and otherwise as the processing of the
    options (the copy made for each [-f]) left it. *)
Theorem X9_startup_failure_registers_nothing
    (argc : Z) (argV : list string) (items : list getopt_item)
    (cfg : option (list JNode)) (inputs : list stimulus)
    (l0 : Locals) (w : World) :
  argc < 2 \/ server w = None ->
  let r := main argc argV items cfg inputs l0 w in
  registry (after r) = []
  /\ heap (after r) =
       (if argc <? 2 then heap w else heap (after_options argV items w))
  /\ count is_server_call (emitted r) = 0%nat
  /\ forall l, value r <> Waiting l.
Proof.
  intros H r. unfold r. rewrite main_unfold.
  destruct (argc <? 2) eqn:Hargc.
  - cbn [value after emitted]. repeat split.
    + now destruct (hd_error argV).
    + discriminate.
  - apply Z.ltb_ge in Hargc. destruct H as [H|H]; [lia|].
    rewrite H. cbn [value after emitted].
    destruct (after_options_frame argV items w) as [v [f [hp Hpo]]].
    repeat split.
    + now rewrite Hpo.
    + apply usage_only_no_server_call, ProcessOptions_usage_only.
    + discriminate.
Qed.

(** ** Registration *)

Lemma notified_app (a b : list event) : notified (a ++ b) = notified a ++ notified b.
Proof. unfold notified. apply flat_map_app. Qed.

Lemma notified_dispatch (l : list event) :
  forallb is_dispatch l = true -> notified l = [].
Proof.
  induction l as [|ev l' IH]; [reflexivity|].
  cbn [forallb]. intro H. apply andb_true_iff in H. destruct H as [Hev Hl].
  destruct ev; try discriminate; cbn; now apply IH.
Qed.

Lemma notified_setup_events (ns : string -> VAR_HANDLE) (pNode : JNode) (hp : list bool) :
  notified (setup_events pNode (fst (setup_effect ns pNode hp))) =
  map hVar (node_list (fst (setup_effect ns pNode hp))).
Proof.
  unfold setup_events, setup_effect.
  destruct (str_of (JSON_Find pNode "var")) as [varname|]; [|reflexivity].
  destruct (str_of (JSON_Find pNode "file")) as [filename|]; [|reflexivity].
  destruct (take_alloc hp) as [[|] hp1]; [|reflexivity].
  now destruct (take_alloc hp1).
Qed.

(** The subscriptions of a pass, in the order they are made, are the
    handles of the nodes it links in, the oldest first. *)
Lemma registration_pass_notified (cfg : list JNode) :
  forall w,
    notified (emitted (registration_pass cfg w)) =
    rev (map hVar (fst (pass_effect (namespace w) cfg (heap w)))).
Proof.
  induction cfg as [|pNode rest IH]; intro w; [reflexivity|].
  rewrite registration_pass_cons. cbn [emitted]. rewrite notified_app, IH.
  rewrite (SetupFileVar_effect pNode w). cbn [after emitted pass_effect].
  rewrite notified_setup_events.
  destruct (setup_effect (namespace w) pNode (heap w)) as [oe hp1].
  cbn [fst snd namespace heap set_registry set_state set_heap].
  destruct (pass_effect (namespace w) rest hp1) as [added hp2].
  cbn [fst]. rewrite map_app, rev_app_distr.
  now destruct oe.
Qed.

Lemma loop_body_notifies_nothing (sig sigval : Z) (l : Locals) (w : World) :
  notified (emitted (loop_body sig sigval l w)) = [].
Proof.
  destruct (Z.eq_dec sig SIG_VAR_PRINT) as [->|Hs].
  - rewrite loop_body_print. cbn [emitted].
    change (?a :: ?b :: ?t ++ ?u) with ([a; b] ++ t ++ u).
    rewrite !notified_app.
    rewrite (notified_dispatch (emitted (PrintFileVar _ _ _ _)))
      by apply PrintFileVar_dispatch_events.
    reflexivity.
  - now rewrite loop_body_other.
Qed.

Lemma dispatch_loop_notifies_nothing (inputs : list stimulus) :
  forall l w, notified (emitted (dispatch_loop inputs l w)) = [].
Proof.
  induction inputs as [|[sig sigval|s] rest IH]; intros l w; try reflexivity.
  rewrite dispatch_loop_cons. cbn [emitted].
  now rewrite notified_app, loop_body_notifies_nothing, IH.
Qed.

Lemma main_emitted (argc : Z) (argV : list string) (items : list getopt_item)
    (cfg : option (list JNode)) (inputs : list stimulus) (l0 : Locals) (w : World) :
  emitted (main argc argV items cfg inputs l0 w) =
    if argc <? 2 then emitted (usage (hd_error argV) (set_state zero_state w))
    else
      let po := ProcessOptions items (Some argV) AddrOfState (set_state zero_state w) in
      match server w with
      | Some hs =>
          let w1 := set_hVarServer (Some hs) (after_options argV items w) in
          let pass := JSON_Iterate cfg SetupFileVar AddrOfState w1 in
          emitted po ++ emitted pass ++ emitted (dispatch_loop inputs l0 (after pass))
      | None => emitted po
      end.
Proof.
  rewrite main_unfold. destruct (argc <? 2); [reflexivity|].
  now destruct (server w).
Qed.

(** X10.  The registry and the subscriptions agree.  At any point of a
    run of [main], the handles of the nodes of the registry, from the
    newest to the oldest, are exactly the handles [VAR_Notify] was called
    for, from the last call to the first: every node was subscribed once
    when it was linked in, nodes tagged with the invalid handle included,
    and nothing else ever was. *)
Theorem X10_registry_matches_subscriptions
    (argc : Z) (argV : list string) (items : list getopt_item)
    (cfg : option (list JNode)) (inputs : list stimulus)
    (l0 : Locals) (w : World) :
  map hVar (registry (after (main argc argV items cfg inputs l0 w))) =
  rev (notified (emitted (main argc argV items cfg inputs l0 w))).
Proof.
  rewrite main_registry, main_emitted.
  destruct (argc <? 2).
  { destruct (hd_error argV); now destruct cfg. }
  cbn zeta.
  destruct (usage_only_no_server_call _
              (ProcessOptions_usage_only items (Some argV) AddrOfState
                 (set_state zero_state w))) as [_ Hpo].
  destruct (server w) as [hs|]; [|rewrite Hpo; now destruct cfg].
  rewrite !notified_app, Hpo, dispatch_loop_notifies_nothing, app_nil_r.
  cbn [app].
  destruct cfg as [records|]; [|reflexivity].
  change (JSON_Iterate (Some records) SetupFileVar AddrOfState)
    with (registration_pass records).
  rewrite registration_pass_notified.
  destruct (after_options_frame argV items w) as [v [f [hp ->]]].
  cbn [namespace heap set_hVarServer set_state set_heap set_pFileName set_verbose].
  now rewrite rev_involutive.
Qed.

Lemma setup_effect_plenty (ns : string -> VAR_HANDLE) (pNode : JNode) :
  setup_effect ns pNode [] = (record_node ns pNode, []).
Proof.
  unfold setup_effect, record_node.
  destruct (str_of (JSON_Find pNode "var")); [|reflexivity].
  now destruct (str_of (JSON_Find pNode "file")).
Qed.

Lemma pass_effect_plenty (ns : string -> VAR_HANDLE) (cfg : list JNode) :
  pass_effect ns cfg [] =
    (rev (flat_map (fun pNode => node_list (record_node ns pNode)) cfg), []).
Proof.
  induction cfg as [|pNode rest IH]; [reflexivity|].
  cbn [pass_effect flat_map]. rewrite setup_effect_plenty, IH, rev_app_distr.
  now destruct (record_node ns pNode).
Qed.

(** X11.  With memory available, a registration pass puts in front of the
    registry one node per record that has both its ["var"] and its
    ["file"] string, in the reverse of the order of the configuration,
    each with the handle the namespace gives for the name and with the
    file name of the record; a record that lacks one of the two strings
    contributes nothing, wherever it stands. *)
Theorem X11_registry_is_reversed_configuration (cfg : list JNode) (w : World) :
  heap w = [] ->
  registry (after (registration_pass cfg w)) =
    rev (flat_map (fun pNode => node_list (record_node (namespace w) pNode)) cfg)
    ++ registry w.
Proof.
  intro Hheap. rewrite registration_pass_effect, Hheap, pass_effect_plenty. reflexivity.
Qed.

Lemma setup_effect_links (pNode : JNode) (w : World) :
  fst (setup_effect (namespace w) pNode (heap w)) <> None <->
  str_of (JSON_Find pNode "var") <> None /\
  str_of (JSON_Find pNode "file") <> None /\
  value (malloc w) = true.
Proof.
  unfold setup_effect, malloc, alloc, take_alloc.
  destruct (str_of (JSON_Find pNode "var")) as [varname|];
    [destruct (str_of (JSON_Find pNode "file")) as [filename|]|].
  - destruct (heap w) as [|[|] [|ok2 hp2]]; cbn; split; intro H;
      try (repeat split; discriminate); try discriminate;
      try (now destruct H as [_ [_ H]]); try (now destruct H).
  - cbn. split; intro H; [now destruct H | now destruct H as [_ [H _]]].
  - cbn. split; intro H; [now destruct H | now destruct H as [H _]].
Qed.

(** X12.  [SetupFileVar] returns EOK or EINVAL, and EOK exactly when it
    has linked a node in front of the list: that is, when it was given
    the state, the record has both strings and the node could be
    allocated.  Neither what the namespace answers for the name nor the
    outcome of [strdup] has any part in the result. *)
Theorem X12_SetupFileVar_result (pNode : JNode) (arg : StatePtr) (w : World) :
  let r := SetupFileVar pNode arg w in
  (value r = EOK \/ value r = EINVAL)
  /\ (value r = EOK <->
        arg = AddrOfState /\
        str_of (JSON_Find pNode "var") <> None /\
        str_of (JSON_Find pNode "file") <> None /\
        value (malloc w) = true)
  /\ (value r = EOK <-> exists e, registry (after r) = e :: registry w)
  /\ (value r = EINVAL <-> registry (after r) = registry w).
Proof.
  destruct result_codes_distinct as [_ [D _]].
  destruct arg.
  - cbn. split; [now right|]. split; [|split]; split; intro H.
    + congruence.
    + now destruct H.
    + congruence.
    + destruct H as [e He]. now destruct (cons_neq _ _ (eq_sym He)).
    + reflexivity.
    + reflexivity.
  - cbn zeta. rewrite SetupFileVar_effect. cbn [value after].
    pose proof (setup_effect_links pNode w) as Hlinks.
    destruct (fst (setup_effect (namespace w) pNode (heap w))) as [e|];
      cbn [node_list app registry set_registry set_state set_heap state pFileVars].
    + split; [now left|]. split; [|split]; split; intro H.
      * split; [reflexivity|]. apply Hlinks. discriminate.
      * reflexivity.
      * now exists e.
      * reflexivity.
      * congruence.
      * now destruct (cons_neq _ _ H).
    + split; [now right|]. split; [|split]; split; intro H.
      * congruence.
      * destruct H as [_ H]. apply Hlinks in H. now destruct H.
      * congruence.
      * destruct H as [e He]. now destruct (cons_neq _ _ (eq_sym He)).
      * reflexivity.
      * reflexivity.
Qed.

(** X13.  When the node is allocated but the copy of the file name is
    not, [SetupFileVar] still returns EOK and links a node for the handle,
    with a null file name.  A print for that handle then finds the node,
    the [open] of the null name fails, nothing is rendered, and the result
    is EOK all the same. *)
Theorem X13_failed_strdup_registers_unrenderable_node
    (pNode : JNode) (varname filename : string) (rest : list bool) (fd : Z) (w : World) :
  str_of (JSON_Find pNode "var") = Some varname ->
  str_of (JSON_Find pNode "file") = Some filename ->
  heap w = true :: false :: rest ->
  namespace w varname <> VAR_INVALID ->
  let r := SetupFileVar pNode AddrOfState w in
  let node := {| hVar := namespace w varname; pFilename := None |} in
  let d := PrintFileVar AddrOfState (namespace w varname) fd (after r) in
  value r = EOK
  /\ registry (after r) = node :: registry w
  /\ value d = EOK
  /\ emitted d = [EvTest node true; EvOpen None (-1)]
  /\ after d = after r.
Proof.
  intros Hvar Hfile Hheap Hval r node d.
  assert (Hr : r = Out EOK (set_registry (node :: registry w) (set_heap rest w))
                       [EvFindByName varname; EvNotify (namespace w varname)]).
  { unfold r. rewrite SetupFileVar_effect.
    unfold setup_effect, setup_events. rewrite Hvar, Hfile, Hheap. reflexivity. }
  assert (Hd : d = Out EOK (after r) [EvTest node true; EvOpen None (-1)]).
  { unfold d, PrintFileVar. apply Z.eqb_neq in Hval. rewrite Hval. cbn [negb].
    unfold bind, get. cbn [value after emitted app].
    rewrite Hr. cbn [after registry set_registry set_state state pFileVars].
    rewrite (scan_hit [] (registry w) node (namespace w varname) fd _
               (fun e' (H : In e' []) => match H with end) eq_refl).
    now rewrite render_file_unreadable. }
  rewrite Hd, Hr. now repeat split.
Qed.

(** ** The command line *)

(** X14.  [ProcessOptions] reports nothing: it returns 0 whatever the
    options and whatever its arguments, null ones included, for which it
    does nothing at all.  It never touches the registry, the handle of
    the variable server or the descriptors, and its only calls are to
    [usage]. *)
Theorem X14_ProcessOptions_always_returns_zero
    (items : list getopt_item) (argV : option (list string)) (pState : StatePtr)
    (w : World) :
  let r := ProcessOptions items argV pState w in
  value r = 0
  /\ registry (after r) = registry w
  /\ hVarServer (state (after r)) = hVarServer (state w)
  /\ fds (after r) = fds w
  /\ forallb is_usage (emitted r) = true
  /\ (pState = NullPtr \/ argV = None -> r = Out 0 w []).
Proof.
  cbn zeta. unfold ProcessOptions.
  destruct pState; [repeat split|].
  destruct argV as [args|]; [|repeat split].
  unfold bind, ret. cbn [value after emitted].
  destruct (ProcessOptions_loop_frame items (hd_error args) w) as [v [f [hp ->]]].
  repeat split.
  - rewrite app_nil_r. apply ProcessOptions_loop_usage_only.
  - intros [H|H]; discriminate.
Qed.

Lemma ProcessOptions_loop_verbose (items : list getopt_item) (argV0 : option string) :
  forall w,
    verbose (state (after (ProcessOptions_loop items argV0 w))) =
    verbose (state w) || existsb is_Got_v items.
Proof.
  induction items as [|c rest IH]; intro w.
  - cbn. now rewrite orb_false_r.
  - cbn [ProcessOptions_loop existsb]. unfold bind. cbn [after]. rewrite IH.
    destruct c as [| |optarg|]; cbn [is_Got_v orb].
    + now destruct argV0.
    + cbn. now rewrite orb_true_r.
    + unfold strdup, bind, alloc, update, ret. now destruct (heap w).
    + reflexivity.
Qed.

(** X15.  The [verbose] flag can be set by the options but never cleared:
    after [ProcessOptions] it is on exactly when it was on before or some
    [-v] was among the options, wherever it stood and whatever stood
    around it. *)
Theorem X15_verbose_is_set_never_cleared
    (items : list getopt_item) (args : list string) (w : World) :
  verbose (state (after (ProcessOptions items (Some args) AddrOfState w))) =
  verbose (state w) || existsb is_Got_v items.
Proof.
  unfold ProcessOptions, bind, ret. cbn [after]. apply ProcessOptions_loop_verbose.
Qed.

Lemma ProcessOptions_loop_file (items : list getopt_item) (argV0 : option string) :
  forall w,
    heap w = [] ->
    heap (after (ProcessOptions_loop items argV0 w)) = [] /\
    pFileName (state (after (ProcessOptions_loop items argV0 w))) =
      match last_f items with
      | Some optarg => Some optarg
      | None => pFileName (state w)
      end.
Proof.
  induction items as [|c rest IH]; intros w Hheap.
  - now split.
  - cbn [ProcessOptions_loop last_f]. unfold bind. cbn [after].
    destruct c as [| |optarg|].
    + destruct argV0; apply IH; exact Hheap.
    + destruct (IH (set_verbose true w) Hheap) as [H1 H2]. now split.
    + unfold strdup, bind, alloc, update, ret. rewrite Hheap. cbn [value after].
      destruct (IH (set_pFileName (Some optarg) w) Hheap) as [H1 H2].
      split; [exact H1|]. rewrite H2. now destruct (last_f rest).
    + apply IH. exact Hheap.
Qed.

(** X16.  With memory available, the file name of the state after
    [ProcessOptions] is the argument of the last [-f] among the options:
    a later [-f] replaces an earlier one, and without any [-f] the file
    name is left as it was. *)
Theorem X16_last_file_option_wins
    (items : list getopt_item) (args : list string) (w : World) :
  heap w = [] ->
  pFileName (state (after (ProcessOptions items (Some args) AddrOfState w))) =
    match last_f items with
    | Some optarg => Some optarg
    | None => pFileName (state w)
    end.
Proof.
  intro Hheap. unfold ProcessOptions, bind, ret. cbn [after].
  now apply ProcessOptions_loop_file.
Qed.

Lemma ProcessOptions_loop_relevant (items : list getopt_item) (a0 b0 : option string) :
  forall w,
    after (ProcessOptions_loop items a0 w) =
    after (ProcessOptions_loop (filter (fun c => is_Got_v c || is_Got_f c) items) b0 w).
Proof.
  induction items as [|c rest IH]; intro w; [reflexivity|].
  cbn [ProcessOptions_loop filter]. destruct c as [| |optarg|]; cbn [is_Got_v is_Got_f orb].
  - unfold bind at 1. cbn [after]. rewrite <- IH. now destruct a0.
  - cbn [ProcessOptions_loop]. unfold bind. cbn [after]. apply IH.
  - cbn [ProcessOptions_loop]. unfold bind. cbn [after]. apply IH.
  - unfold bind at 1. cbn [after]. now rewrite <- IH.
Qed.

Lemma ProcessOptions_loop_usage_count (items : list getopt_item) (argV0 : option string) :
  forall w,
    count is_usage (emitted (ProcessOptions_loop items argV0 w)) =
    match argV0 with
    | Some _ => List.length (filter is_Got_h items)
    | None => 0%nat
    end.
Proof.
  induction items as [|c rest IH]; intro w.
  - now destruct argV0.
  - cbn [ProcessOptions_loop filter]. unfold bind. cbn [emitted].
    rewrite count_app, IH.
    destruct c as [| |optarg|]; cbn [is_Got_h].
    + now destruct argV0.
    + now destruct argV0.
    + unfold strdup, bind, alloc, update, ret. destruct (heap w); now destruct argV0.
    + now destruct argV0.
Qed.

(** X17.  [-h] and unknown options are no reason to stop: the usage
    message is printed once for every [-h] (when the program has a name),
    every option behind it is still processed, and the process ends up
    exactly as if the [-h] and the unknown options had not been given. *)
Theorem X17_help_and_unknown_options_change_nothing
    (items : list getopt_item) (args : list string) (w : World) :
  let r := ProcessOptions items (Some args) AddrOfState w in
  after r =
    after (ProcessOptions (filter (fun c => is_Got_v c || is_Got_f c) items)
                          (Some args) AddrOfState w)
  /\ count is_usage (emitted r) =
       match args with
       | [] => 0%nat
       | _ :: _ => List.length (filter is_Got_h items)
       end.
Proof.
  cbn zeta. unfold ProcessOptions, bind, ret. cbn [after emitted]. split.
  - apply ProcessOptions_loop_relevant.
  - rewrite app_nil_r, ProcessOptions_loop_usage_count. now destruct args.
Qed.

(** ** Dispatch steps together, and configuration to dispatch *)

(** X18.  Dispatch steps do not interfere: as long as descriptor 0 is in
    use, a request is served exactly as if the requests before it had
    never been made, whatever they were for and however they ended. *)
Theorem X18_dispatch_steps_do_not_interfere
    (p1 p2 : StatePtr) (h1 h2 : VAR_HANDLE) (fd1 fd2 : Z) (w : World) :
  in_use 0 (fds w) = true ->
  PrintFileVar p2 h2 fd2 (after (PrintFileVar p1 h1 fd1 w)) = PrintFileVar p2 h2 fd2 w.
Proof.
  intro H0. now rewrite PrintFileVar_closes_what_it_opens.
Qed.

Lemma PrintFileVar_EOK_iff (h : VAR_HANDLE) (fd : Z) (w : World) :
  value (PrintFileVar AddrOfState h fd w) = EOK <->
  h <> VAR_INVALID /\ exists e, In e (registry w) /\ hVar e = h.
Proof.
  destruct result_codes_distinct as [D1 [D2 D3]].
  destruct (PrintFileVar_cases AddrOfState h fd w) as [Hrej | _ Hv Hl | e l1 l2 _ Hl _ _];
    cbn [value]; split; intro H.
  - congruence.
  - destruct H as [Hv _]. destruct Hrej; congruence.
  - congruence.
  - destruct H as [_ [e [Hin He]]].
    now destruct (lookup_none_unregistered w h Hv Hl e Hin).
  - apply lookup_in_valid in Hl. destruct Hl as [Hv [He Hin]].
    split; [exact Hv|]. now exists e.
  - reflexivity.
Qed.

Lemma in_record_nodes (ns : string -> VAR_HANDLE) (cfg : list JNode) (e : FileVar) :
  In e (rev (flat_map (fun pNode => node_list (record_node ns pNode)) cfg)) <->
  exists pNode, In pNode cfg /\ record_node ns pNode = Some e.
Proof.
  rewrite <- in_rev, in_flat_map. split; intros [pNode [Hin H]]; exists pNode.
  - split; [exact Hin|]. destruct (record_node ns pNode) as [e'|]; [|destruct H].
    destruct H as [->|[]]. reflexivity.
  - split; [exact Hin|]. rewrite H. now left.
Qed.

(** X19.  From the configuration to the dispatch.  Once [main] has come
    up with memory available, a print request is answered with EOK
    exactly for the valid handles that the namespace gives for the name
    of some record of the configuration that has both of its strings: all
    of them are served, first or last, duplicated or not, and no other
    handle ever is. *)
Theorem X19_configured_handles_are_the_ones_served
    (argc : Z) (argV : list string) (items : list getopt_item)
    (records : list JNode) (inputs : list stimulus) (l0 : Locals)
    (w : World) (h : VAR_HANDLE) (fd : Z) :
  2 <= argc ->
  server w <> None ->
  heap w = [] ->
  let w' := after (main argc argV items (Some records) inputs l0 w) in
  value (PrintFileVar AddrOfState h fd w') = EOK <->
  h <> VAR_INVALID /\
  exists pNode varname filename,
    In pNode records /\
    str_of (JSON_Find pNode "var") = Some varname /\
    str_of (JSON_Find pNode "file") = Some filename /\
    namespace w varname = h.
Proof.
  intros Hargc Hserver Hheap w'.
  assert (Hreg : registry w' =
                 rev (flat_map (fun pNode => node_list (record_node (namespace w) pNode))
                               records)).
  { unfold w'. rewrite main_registry.
    apply Z.ltb_ge in Hargc. rewrite Hargc.
    destruct (server w); [|now destruct Hserver].
    assert (Hopt : heap (after_options argV items w) = []).
    { unfold after_options, ProcessOptions, bind, ret. cbn [after].
      now apply ProcessOptions_loop_file. }
    now rewrite Hopt, pass_effect_plenty. }
  rewrite PrintFileVar_EOK_iff, Hreg. split; intros [Hv H]; (split; [exact Hv|]).
  - destruct H as [e [Hin He]]. apply in_record_nodes in Hin.
    destruct Hin as [pNode [Hp Hnode]]. unfold record_node in Hnode.
    destruct (str_of (JSON_Find pNode "var")) as [varname|] eqn:Hvar; [|discriminate].
    destruct (str_of (JSON_Find pNode "file")) as [filename|] eqn:Hfile; [|discriminate].
    injection Hnode as <-. exists pNode, varname, filename. now repeat split.
  - destruct H as [pNode [varname [filename [Hp [Hvar [Hfile Hns]]]]]].
    exists {| hVar := namespace w varname; pFilename := Some filename |}.
    split; [|exact Hns]. apply in_record_nodes. exists pNode. split; [exact Hp|].
    unfold record_node. now rewrite Hvar, Hfile.
Qed.

(** ** A record whose name does not resolve *)



End Program.

(** * The statements at work on the sample installation *)

(** C2, as stated, fails: the name ["Z"] does not resolve, yet
    [SetupFileVar] returns EOK, subscribes, and the registry has one more
    node than before. *)
Lemma C2_unresolved_name_is_registered :
  let pNode := sample_record "Z" "/tmp/z.tpl" in
  let r := SetupFileVar pNode AddrOfState sample_world in
  namespace sample_world "Z" = sample_VAR_INVALID
  /\ value r = EOK
  /\ value r <> EINVAL
  /\ registry sample_world = []
  /\ registry (after r) =
       [{| hVar := sample_VAR_INVALID; pFilename := Some "/tmp/z.tpl"%string |}]
  /\ emitted r = [EvFindByName "Z"; EvNotify sample_VAR_INVALID].
Proof.
  cbn zeta. repeat split; try reflexivity. discriminate.
Qed.

Lemma C2_witness :
  let pNode := [("var"%string, Some "A"%string)] in
  let r := SetupFileVar pNode AddrOfState sample_world in
  str_of (JSON_Find pNode "file") = None
  /\ value r = EINVAL /\ registry (after r) = registry sample_world /\ emitted r = [].
Proof.
  cbn zeta. split; [reflexivity|].
  apply (C2_failed_registration_adds_nothing
           [("var"%string, Some "A"%string)] AddrOfState sample_world).
  right. right. left. reflexivity.
Defined.

Lemma C3_witness :
  let w := after (main sample_VAR_INVALID sample_SIG_VAR_PRINT 3 sample_argV sample_items
                       (Some [sample_record "A" "/tmp/a.tpl"])
                       [Signal sample_SIG_VAR_PRINT 1] sample_locals sample_world) in
  In sample_a (registry w)
  /\ ((hVar sample_a <> sample_VAR_INVALID /\
       exists records pNode varname,
         Some [sample_record "A" "/tmp/a.tpl"] = Some records /\ In pNode records /\
         str_of (JSON_Find pNode "var") = Some varname /\
         namespace sample_world varname = hVar sample_a)
      \/
      (hVar sample_a = sample_VAR_INVALID /\
       forall pState h fd w',
         lookup sample_VAR_INVALID w' h <> Some sample_a /\
         ~ In (EvTest sample_a true)
              (emitted (PrintFileVar sample_VAR_INVALID pState h fd w')))).
Proof.
  cbn zeta.
  assert (Hin : In sample_a
                  (registry (after (main sample_VAR_INVALID sample_SIG_VAR_PRINT 3 sample_argV sample_items
                       (Some [sample_record "A" "/tmp/a.tpl"])
                       [Signal sample_SIG_VAR_PRINT 1] sample_locals sample_world))))
    by (vm_compute; left; reflexivity).
  split; [exact Hin|].
  exact (C3_registry_nodes_resolved_or_inert sample_VAR_INVALID sample_SIG_VAR_PRINT
           3 sample_argV sample_items (Some [sample_record "A" "/tmp/a.tpl"])
           [Signal sample_SIG_VAR_PRINT 1] sample_locals sample_world sample_a Hin).
Defined.

Lemma C4_witness :
  sessions sample_running 3 = Some (7, 12)
  /\ value (PrintFileVar sample_VAR_INVALID AddrOfState 7 12 sample_running) = ENOENT
  /\ value (dispatch_loop sample_VAR_INVALID sample_SIG_VAR_PRINT
              [Signal sample_SIG_VAR_PRINT 3] sample_locals sample_running)
     = Waiting {| l_hVar := 7; l_fd := 12 |}.
Proof.
  split; [reflexivity|].
  assert (Hv : 7 <> sample_VAR_INVALID) by (unfold sample_VAR_INVALID; lia).
  assert (Hno : forall e, In e (registry sample_running) -> hVar e <> 7).
  { intros e [<-|[<-|[]]]; simpl; lia. }
  pose proof (C4_unregistered_handle_reports_ENOENT sample_VAR_INVALID
                sample_SIG_VAR_PRINT 7 12 3 sample_locals sample_running []
                Hv Hno eq_refl) as H.
  cbn zeta in H. split; [apply H|]. apply H.
Defined.

Lemma C5_witness :
  lookup sample_VAR_INVALID sample_running 6 = Some sample_b
  /\ file_at sample_running (pFilename sample_b) = None
  /\ value (PrintFileVar sample_VAR_INVALID AddrOfState 6 11 sample_running) = EOK
  /\ count is_release
       (emitted (loop_body sample_VAR_INVALID sample_SIG_VAR_PRINT
                   sample_SIG_VAR_PRINT 2 sample_locals sample_running)) = 1%nat.
Proof.
  split; [reflexivity|]. split; [reflexivity|].
  pose proof (C5_unopenable_file_renders_nothing sample_VAR_INVALID
                sample_SIG_VAR_PRINT 6 11 2 sample_locals sample_running sample_b []
                eq_refl eq_refl eq_refl) as H.
  cbn zeta in H. split; apply H.
Defined.

Lemma C6_witness :
  let w' := after (registration_pass
                     [sample_record "A" "/tmp/a.tpl"; sample_record "B" "/tmp/b.tpl"]
                     sample_world) in
  lookup sample_VAR_INVALID w' 5 = Some sample_a
  /\ delivered_to 10 (emitted (PrintFileVar sample_VAR_INVALID AddrOfState 5 10 w'))
     = [x68; x69].
Proof.
  cbn zeta.
  assert (Hval : namespace sample_world "A" <> sample_VAR_INVALID)
    by (vm_compute; lia).
  assert (Hpost : forall q n, In q [sample_record "B" "/tmp/b.tpl"] ->
                    str_of (JSON_Find q "var") = Some n ->
                    namespace sample_world n <> namespace sample_world "A").
  { intros q n [<-|[]] Hn. vm_compute in Hn. injection Hn as <-. vm_compute. lia. }
  pose proof (C6_lookup_returns_registered_file sample_VAR_INVALID
                (sample_record "A" "/tmp/a.tpl") [sample_record "B" "/tmp/b.tpl"]
                "A" "/tmp/a.tpl" sample_world eq_refl eq_refl eq_refl Hval Hpost) as H.
  cbn zeta in H. destruct H as [_ [Hl Hd]]. split; [exact Hl|].
  apply (Hd _ 10 [x68; x69] eq_refl eq_refl eq_refl).
Defined.

(** C6, as stated, fails: the two names are different and both are
    registered, yet the lookup of the handle that ["A"] resolves to
    returns the file of ["B"], because ["B"] is an alias of ["A"] and was
    registered later. *)
Lemma C6_alias_hides_registered_file :
  let cfg := [sample_record "A" "/tmp/a.tpl"; sample_record "B" "/tmp/b.tpl"] in
  let w' := after (registration_pass cfg alias_world) in
  "A"%string <> "B"%string
  /\ value (SetupFileVar (sample_record "A" "/tmp/a.tpl") AddrOfState alias_world) = EOK
  /\ registry w' = [{| hVar := 5; pFilename := Some "/tmp/b.tpl"%string |};
                    {| hVar := 5; pFilename := Some "/tmp/a.tpl"%string |}]
  /\ lookup sample_VAR_INVALID w' (namespace alias_world "A")
     = Some {| hVar := 5; pFilename := Some "/tmp/b.tpl"%string |}
  /\ lookup sample_VAR_INVALID w' (namespace alias_world "A")
     <> Some {| hVar := 5; pFilename := Some "/tmp/a.tpl"%string |}.
Proof.
  cbn zeta. repeat split; try reflexivity; discriminate.
Qed.

Lemma C7_witness :
  let cfg := [sample_record "A" "/tmp/a.tpl"; sample_record "B" "/tmp/b.tpl";
              sample_record "A" "/tmp/a2.tpl"] in
  let w' := after (registration_pass cfg sample_world) in
  lookup sample_VAR_INVALID w' 5 = Some {| hVar := 5; pFilename := Some "/tmp/a2.tpl"%string |}
  /\ In sample_a (registry w')
  /\ value (PrintFileVar sample_VAR_INVALID AddrOfState 5 10 w') = EOK
  /\ exists ret,
       In (EvOpen (Some "/tmp/a2.tpl"%string) ret)
          (emitted (PrintFileVar sample_VAR_INVALID AddrOfState 5 10 w')).
Proof.
  cbn zeta.
  assert (Hdiff : "/tmp/a.tpl"%string <> "/tmp/a2.tpl"%string) by discriminate.
  assert (Hval : namespace sample_world "A" <> sample_VAR_INVALID)
    by (vm_compute; lia).
  assert (Hpost : forall q n, In q (@nil JNode) ->
                    str_of (JSON_Find q "var") = Some n ->
                    namespace sample_world n <> namespace sample_world "A")
    by (intros q n []).
  pose proof (C7_last_registration_wins sample_VAR_INVALID
                [] [sample_record "B" "/tmp/b.tpl"] []
                (sample_record "A" "/tmp/a.tpl") (sample_record "A" "/tmp/a2.tpl")
                "A" "/tmp/a.tpl" "/tmp/a2.tpl" sample_world
                eq_refl eq_refl eq_refl eq_refl Hdiff Hval eq_refl eq_refl Hpost) as H.
  cbn zeta in H. destruct H as [Hl [_ [Hin [_ Hd]]]].
  split; [exact Hl|]. split; [exact Hin|].
  destruct (Hd 10 _ eq_refl) as [Hok [_ [_ [Hopen _]]]].
  split; [exact Hok | exact Hopen].
Defined.



Lemma C9_witness :
  value (PrintFileVar sample_VAR_INVALID AddrOfState sample_VAR_INVALID 10 sample_running)
    = EINVAL
  /\ emitted (PrintFileVar sample_VAR_INVALID AddrOfState sample_VAR_INVALID 10 sample_running)
    = [].
Proof.
  pose proof (C9_invalid_arguments_rejected sample_VAR_INVALID AddrOfState
                sample_VAR_INVALID 10 sample_running (or_intror eq_refl)) as H.
  cbn zeta in H. split; apply H.
Defined.

(** C10: the second half fails on the code.  With descriptor 0 free, the
    template of ["A"], which exists, is opened on descriptor 0; the test
    [fd_in > 0] then skips both the rendering and the [close]: the step
    returns EOK having delivered nothing, and descriptor 0 is still open
    on the template when it returns. *)
Theorem C10_descriptor_zero_is_leaked :
  let dispatched := PrintFileVar sample_VAR_INVALID AddrOfState 5 10 sample_no_stdin in
  in_use 0 (fds sample_no_stdin) = false
  /\ file_at sample_no_stdin (pFilename sample_a) = Some [x68; x69]
  /\ value dispatched = EOK
  /\ emitted dispatched =
       [EvTest sample_b false; EvTest sample_a true; EvOpen (pFilename sample_a) 0]
  /\ count is_close (emitted dispatched) = 0%nat
  /\ delivered_to 10 (emitted dispatched) = []
  /\ fds (after dispatched) = (0, pFilename sample_a) :: fds sample_no_stdin.
Proof.
  cbn zeta. repeat split; reflexivity.
Qed.

(** The end-to-end scenario of the specification on the sample
    installation: a print for ["A"] delivers its template, a print for the
    unconfigured ["C"] delivers nothing, and the process is back waiting. *)
Example end_to_end :
  let run := main sample_VAR_INVALID sample_SIG_VAR_PRINT 3 sample_argV sample_items
               (Some [sample_record "A" "/tmp/a.tpl"; sample_record "B" "/tmp/b.tpl"])
               [Signal sample_SIG_VAR_PRINT 1; Signal sample_SIG_VAR_PRINT 3]
               sample_locals sample_world in
  value run = Waiting {| l_hVar := 7; l_fd := 12 |}
  /\ emitted run =
       [EvFindByName "A"; EvNotify 5; EvFindByName "B"; EvNotify 6;
        EvWaitSignal 42 1; EvOpenPrintSession 1;
        EvTest sample_b false; EvTest sample_a true;
        EvOpen (Some "/tmp/a.tpl"%string) 3; EvRender 3 10 [x68; x69]; EvClose 3;
        EvClosePrintSession 1 10;
        EvWaitSignal 42 3; EvOpenPrintSession 3;
        EvTest sample_b false; EvTest sample_a false;
        EvClosePrintSession 3 12]
  /\ fds (after run) = fds sample_world.
Proof. cbn zeta. repeat split; reflexivity. Qed.

(** * The further properties at work on the sample installation *)

Lemma X2_witness :
  tested (emitted (PrintFileVar sample_VAR_INVALID AddrOfState 5 10 sample_running))
    = [sample_b; sample_a]
  /\ count is_test
       (emitted (PrintFileVar sample_VAR_INVALID AddrOfState 5 10 sample_running))
     = 2%nat.
Proof.
  assert (Hv : 5 <> sample_VAR_INVALID) by (unfold sample_VAR_INVALID; lia).
  assert (Hpre : forall e', In e' [sample_b] -> hVar e' <> 5).
  { intros e' [<-|[]]. simpl. lia. }
  pose proof (X2_scan_stops_at_first_match sample_VAR_INVALID [sample_b] [] sample_a
                5 10 sample_running eq_refl eq_refl Hv Hpre) as H.
  cbn zeta in H. split; apply H.
Defined.

Lemma X6_witness :
  dispatch_loop sample_VAR_INVALID sample_SIG_VAR_PRINT
    [Signal 35 0; Signal 41 7] sample_locals sample_running
  = Out (Waiting sample_locals) sample_running [EvWaitSignal 35 0; EvWaitSignal 41 7].
Proof.
  exact (X6_other_signals_are_ignored sample_VAR_INVALID sample_SIG_VAR_PRINT
           [Signal 35 0; Signal 41 7] sample_locals sample_running eq_refl).
Defined.

Lemma X7_witness :
  let r := dispatch_loop sample_VAR_INVALID sample_SIG_VAR_PRINT
             ([Signal sample_SIG_VAR_PRINT 1] ++ Terminate 15 ::
              [Signal sample_SIG_VAR_PRINT 2])
             sample_locals sample_running in
  value r = Exited 1 /\ count is_server_close (emitted r) = 1%nat.
Proof.
  pose proof (X7_termination_closes_server_and_exits sample_VAR_INVALID
                sample_SIG_VAR_PRINT [Signal sample_SIG_VAR_PRINT 1]
                [Signal sample_SIG_VAR_PRINT 2] 15 sample_locals sample_running
                eq_refl) as H.
  cbn zeta in H. cbn zeta. split; apply H.
Defined.

Lemma X9_witness :
  let r := main sample_VAR_INVALID sample_SIG_VAR_PRINT 1 ["filevars"%string] []
             (Some [sample_record "A" "/tmp/a.tpl"])
             [Signal sample_SIG_VAR_PRINT 1] sample_locals sample_world in
  registry (after r) = [] /\ count is_server_call (emitted r) = 0%nat.
Proof.
  assert (Hargs : 1 < 2 \/ server sample_world = None) by (left; lia).
  pose proof (X9_startup_failure_registers_nothing sample_VAR_INVALID
                sample_SIG_VAR_PRINT 1 ["filevars"%string] []
                (Some [sample_record "A" "/tmp/a.tpl"])
                [Signal sample_SIG_VAR_PRINT 1] sample_locals sample_world Hargs) as H.
  cbn zeta in H. cbn zeta. split; apply H.
Defined.

Lemma X11_witness :
  registry (after (registration_pass
                     [sample_record "A" "/tmp/a.tpl";
                      [("name"%string, Some "B"%string);
                       ("file"%string, Some "/tmp/b.tpl"%string)];
                      sample_record "B" "/tmp/b.tpl"]
                     sample_world))
  = [sample_b; sample_a].
Proof.
  exact (X11_registry_is_reversed_configuration
           [sample_record "A" "/tmp/a.tpl";
            [("name"%string, Some "B"%string); ("file"%string, Some "/tmp/b.tpl"%string)];
            sample_record "B" "/tmp/b.tpl"]
           sample_world eq_refl).
Defined.

Lemma X13_witness :
  let w := set_heap [true; false] sample_world in
  let r := SetupFileVar (sample_record "A" "/tmp/a.tpl") AddrOfState w in
  value r = EOK
  /\ registry (after r) = [{| hVar := 5; pFilename := None |}]
  /\ value (PrintFileVar sample_VAR_INVALID AddrOfState 5 10 (after r)) = EOK
  /\ count is_render
       (emitted (PrintFileVar sample_VAR_INVALID AddrOfState 5 10 (after r))) = 0%nat.
Proof.
  assert (Hval : namespace (set_heap [true; false] sample_world) "A" <> sample_VAR_INVALID)
    by (vm_compute; lia).
  pose proof (X13_failed_strdup_registers_unrenderable_node sample_VAR_INVALID
                (sample_record "A" "/tmp/a.tpl") "A" "/tmp/a.tpl" [] 10
                (set_heap [true; false] sample_world)
                eq_refl eq_refl eq_refl Hval) as H.
  cbn zeta in H. cbn zeta. destruct H as [H1 [H2 [H3 [H4 _]]]].
  split; [exact H1|]. split; [exact H2|]. split; [exact H3|].
  exact (f_equal (count is_render) H4).
Defined.

Lemma X16_witness :
  pFileName (state (after (ProcessOptions
                             [Got_f "first.json"; Got_v; Got_f "second.json"]
                             (Some ["filevars"%string]) AddrOfState sample_world)))
  = Some "second.json"%string.
Proof.
  exact (X16_last_file_option_wins
           [Got_f "first.json"; Got_v; Got_f "second.json"]
           ["filevars"%string] sample_world eq_refl).
Defined.

Lemma X18_witness :
  PrintFileVar sample_VAR_INVALID AddrOfState 6 11
    (after (PrintFileVar sample_VAR_INVALID AddrOfState 5 10 sample_running))
  = PrintFileVar sample_VAR_INVALID AddrOfState 6 11 sample_running.
Proof.
  exact (X18_dispatch_steps_do_not_interfere sample_VAR_INVALID
           AddrOfState AddrOfState 5 6 10 11 sample_running eq_refl).
Defined.

Lemma X19_witness :
  let w' := after (main sample_VAR_INVALID sample_SIG_VAR_PRINT 3 sample_argV sample_items
                        (Some [sample_record "A" "/tmp/a.tpl"; sample_record "Z" "/tmp/z.tpl"])
                        [Signal sample_SIG_VAR_PRINT 1] sample_locals sample_world) in
  value (PrintFileVar sample_VAR_INVALID AddrOfState 5 10 w') = EOK <->
  5 <> sample_VAR_INVALID /\
  exists pNode varname filename,
    In pNode [sample_record "A" "/tmp/a.tpl"; sample_record "Z" "/tmp/z.tpl"] /\
    str_of (JSON_Find pNode "var") = Some varname /\
    str_of (JSON_Find pNode "file") = Some filename /\
    namespace sample_world varname = 5.
Proof.
  assert (Hargc : 2 <= 3) by lia.
  assert (Hserver : server sample_world <> None) by (simpl; discriminate).
  exact (X19_configured_handles_are_the_ones_served sample_VAR_INVALID
           sample_SIG_VAR_PRINT 3 sample_argV sample_items
           [sample_record "A" "/tmp/a.tpl"; sample_record "Z" "/tmp/z.tpl"]
           [Signal sample_SIG_VAR_PRINT 1] sample_locals sample_world 5 10
           Hargc Hserver eq_refl).
Defined.
